(** * Call-stack chart: a shallow embedding of [call-stack-chart.js]

    The repository holds two revisions of one module.  Each exports a
    single function, [createCallStackChart], which type-checks an options
    object against the table [argumentTypeNames], computes the size of the
    callee's stack frame, assembles a list of bar traces plus a layout,
    and hands both to [Plotly.newPlot].  The first revision plots into the
    element named by [options.id], draws bars with a fill pattern, and
    appends an attribution link to that element; the second plots into
    the fixed element ['call-stack-chart'] and has neither [id], pattern
    nor link, and lays the chart out without a margin.

    JavaScript is dynamically typed, so the embedding works on a universe
    of JavaScript data values and spells out the coercions the code
    relies on ([typeof], [+], [*], template literals, destructuring),
    with the exceptions they raise.  Effects (the [Plotly.newPlot] call,
    the DOM append) are recorded in a log that is threaded through a
    state-and-exception monad together with the heap cell holding the
    caller's options object.

    The static page [call-stack-graphs.html] calls Plotly on literal data
    and has no logic of its own; it is not part of the embedding. *)

From stdpp Require Import gmap strings list fin_maps pretty.
From Stdlib Require Import Ascii ZArith Floats Lia.

Set Warnings "-register-all,-inexact-float".
Local Open Scope Z_scope.

(** ** Numbers

    A JavaScript number is an IEEE 754 double.  The program adds byte
    counts, so integers get a constructor of their own, on which
    arithmetic is exact as long as operands and result stay within
    [-2^53, 2^53], where every integer is a double and the sum or
    product of two of them, being again such an integer, is computed
    without rounding.  Everything else is a primitive binary64 float,
    computed with by the kernel's IEEE operations.  [NaN] stands apart
    because coercing [undefined] produces it.

    [Int 0] stands for both zeros: they print alike and the program
    never divides by one.  [Int z] outside the exact range, and [Dbl f]
    for an [f] that is [NaN] or an integer within it, are redundant
    spellings that no operation returns; an operation reads them as the
    double they spell. *)
Inductive number :=
| Int (z : Z)
| NaN
| Dbl (f : float).

Definition limit : Z := 9007199254740992.  (* 2^53 *)

Definition safe (z : Z) : bool := (- limit <=? z) && (z <=? limit).

(** The double nearest to an integer. *)
Definition of_Z (z : Z) : float := SF2Prim (binary_normalize prec emax z 0 false).

Definition to_float (n : number) : float :=
  match n with
  | Int z => of_Z z
  | NaN => nan
  | Dbl f => f
  end.

(** A double, spelt as [Int] or [NaN] where it can be. *)
Definition norm (f : float) : number :=
  match Prim2SF f with
  | S754_nan => NaN
  | S754_zero _ => Int 0
  | S754_infinity _ => Dbl f
  | S754_finite s m e =>
      let magnitude :=
        if 0 <=? e then Some (Z.pos m * 2 ^ e)
        else if Z.pos m mod 2 ^ (- e) =? 0 then Some (Z.pos m / 2 ^ (- e))
        else None in
      match magnitude with
      | Some a => if safe a then Int (if s then - a else a) else Dbl f
      | None => Dbl f
      end
  end.

Definition exactly (op : Z -> Z -> Z) (fop : float -> float -> float) (a b : number)
    : number :=
  match a, b with
  | NaN, _ | _, NaN => NaN
  | Int x, Int y =>
      if safe x && safe y && safe (op x y) then Int (op x y)
      else norm (fop (of_Z x) (of_Z y))
  | _, _ => norm (fop (to_float a) (to_float b))
  end.

Definition num_add : number -> number -> number := exactly Z.add PrimFloat.add.
Definition num_sub : number -> number -> number := exactly Z.sub PrimFloat.sub.
Definition num_mul : number -> number -> number := exactly Z.mul PrimFloat.mul.

(** Division is exact on integers only when it leaves no remainder. *)
Definition num_div (a b : number) : number :=
  match a, b with
  | NaN, _ | _, NaN => NaN
  | Int x, Int y =>
      if safe x && safe y && negb (y =? 0) && (x mod y =? 0) then Int (x / y)
      else norm (of_Z x / of_Z y)%float
  | _, _ => norm (to_float a / to_float b)%float
  end.

(** Neither [NaN] nor infinite. *)
Definition finite (n : number) : bool :=
  match n with
  | Int z => safe z
  | NaN => false
  | Dbl f =>
      match Prim2SF f with
      | S754_zero _ | S754_finite _ _ _ => true
      | _ => false
      end
  end.

(** ** JavaScript values *)

(** Data values: the primitives, arrays, and plain objects, that is
    objects with own data properties under string keys and
    [Object.prototype] as prototype, such as object literals and what
    [JSON.parse] returns.  Functions, symbols and bigints do not occur,
    so no property of a data value is callable. *)
Inductive val :=
| VUndefined
| VNull
| VBool (b : bool)
| VNum (n : number)
| VStr (s : string)
| VArr (elems : list val)
| VObj (props : gmap string val).

Abbreviation object := (gmap string val).
Notation "# z" := (VNum (Int z)) (at level 8, format "# z").

(** [o[p]] on an object, for the property names the program uses (none
    of them is inherited): a missing property reads as [undefined]. *)
Definition property (o : object) (p : string) : val :=
  default VUndefined (o !! p).

(** [typeof v] *)
Definition typeof (v : val) : string :=
  match v with
  | VUndefined => "undefined"
  | VNull => "object"
  | VBool _ => "boolean"
  | VNum _ => "number"
  | VStr _ => "string"
  | VArr _ => "object"
  | VObj _ => "object"
  end.

(** ToBoolean, as used by [c ? a : b]. *)
Definition to_boolean (v : val) : bool :=
  match v with
  | VUndefined | VNull => false
  | VBool b => b
  | VNum (Int z) => negb (z =? 0)
  | VNum NaN => false
  | VNum (Dbl f) =>
      match Prim2SF f with
      | S754_zero _ | S754_nan => false
      | _ => true
      end
  | VStr s => negb (String.eqb s "")
  | VArr _ | VObj _ => true
  end.

(** Number to string, where it is plain: an integer within the exact
    range prints as its decimal digits, and [NaN] and the infinities by
    name.  The shortest-digits algorithm for the other doubles is not
    modelled. *)
Definition number_to_string (n : number) : option string :=
  match n with
  | Int z => if safe z then Some (pretty z) else None
  | NaN => Some "NaN"
  | Dbl f =>
      match Prim2SF f with
      | S754_infinity false => Some "Infinity"
      | S754_infinity true => Some "-Infinity"
      | _ => None
      end
  end.

(** ** Exceptions and partiality

    An expression is a computation that may throw: it lives in
    [result].  [Unmodelled] marks a step whose value this embedding does
    not determine (printing a fraction, parsing a string as a number);
    what the program does from there on is left open. *)

Inductive exn :=
| Error (message : string)
| TypeError.

Inductive result (A : Type) :=
| Ok (a : A)
| Throw (e : exn)
| Unmodelled.
Arguments Ok {A} a.
Arguments Throw {A} e.
Arguments Unmodelled {A}.

#[export] Instance result_ret : MRet result := fun A a => Ok a.

#[export] Instance result_bind : MBind result := fun A B k r =>
  match r with
  | Ok a => k a
  | Throw e => Throw e
  | Unmodelled => Unmodelled
  end.

Definition determined {A} (o : option A) : result A :=
  match o with
  | Some a => Ok a
  | None => Unmodelled
  end.

(** ** Coercions *)

(** ToString, as used by template literals and by [+] on strings.

    An array prints as its elements joined by commas, [null] and
    [undefined] elements printing as nothing.  A plain object prints
    through the [toString] it finds: the inherited one answers
    ['[object Object]']; an own property [toString] shadows it and,
    being data, cannot be called, and then neither [valueOf] helps (an
    own one cannot be called either, the inherited one returns the
    object itself), so the conversion throws a [TypeError]. *)
Fixpoint to_str (v : val) : result string :=
  match v with
  | VUndefined => Ok "undefined"
  | VNull => Ok "null"
  | VBool true => Ok "true"
  | VBool false => Ok "false"
  | VNum n => determined (number_to_string n)
  | VStr s => Ok s
  | VArr elems =>
      strs ← (fix join (es : list val) : result (list string) :=
                match es with
                | [] => Ok []
                | e :: rest =>
                    s ← match e with
                        | VUndefined | VNull => Ok ""
                        | _ => to_str e
                        end;
                    strs ← join rest;
                    Ok (s :: strs)
                end) elems;
      Ok (String.concat "," strs)
  | VObj props =>
      match props !! "toString" with
      | Some _ => Throw TypeError
      | None => Ok "[object Object]"
      end
  end.

(** ToPrimitive: arrays and plain objects become their string form, by
    the same two methods tried in the other order, which for these
    values comes to the same. *)
Definition to_primitive (v : val) : result val :=
  match v with
  | VArr _ | VObj _ => s ← to_str v; Ok (VStr s)
  | _ => Ok v
  end.

(** ToNumber on a primitive.  Parsing a string as a number is not
    modelled. *)
Definition to_number (v : val) : option number :=
  match v with
  | VUndefined => Some NaN
  | VNull => Some (Int 0)
  | VBool b => Some (Int (if b then 1 else 0))
  | VNum n => Some n
  | VStr _ | VArr _ | VObj _ => None
  end.

(** [a + b]: both operands to primitives, left first; concatenation as
    soon as one of them is a string, numeric addition otherwise. *)
Definition js_add (a b : val) : result val :=
  p ← to_primitive a;
  q ← to_primitive b;
  match p, q with
  | VStr _, _ | _, VStr _ => s ← to_str p; t ← to_str q; Ok (VStr (s +:+ t))
  | _, _ => m ← determined (to_number p); n ← determined (to_number q);
            Ok (VNum (num_add m n))
  end.

(** [a - b], [a * b], [a / b]: both operands to numbers, left first. *)
Definition arith (op : number -> number -> number) (a b : val) : result val :=
  p ← to_primitive a;
  m ← determined (to_number p);
  q ← to_primitive b;
  n ← determined (to_number q);
  Ok (VNum (op m n)).

Definition js_sub : val -> val -> result val := arith num_sub.
Definition js_mul : val -> val -> result val := arith num_mul.
Definition js_div : val -> val -> result val := arith num_div.

(** ** What the function hands to its collaborators *)

(** The object built by [barStack].  Its constant entries ([type],
    [hoverinfo], the marker outline, the pattern's size and solidity,
    [textposition], [insidetextanchor]) are left out; [pattern_shape] is
    [None] in the revision that draws no pattern. *)
Record bar := Bar {
  bar_x : string;
  bar_y : val;
  marker_color : val;
  pattern_shape : option string;
  bar_text : string;
}.

Record margin := Margin {
  margin_l : Z;
  margin_r : Z;
  margin_t : Z;
  margin_b : Z;
}.

(** The [layout] literal: what is interpolated into it and what differs
    between the revisions.  [layout_returnValueSize] and
    [layout_callStackFrameSize] are the two values its computed entries
    are built from (they are expanded further down); the entries that
    are the same constants in both revisions (bar mode, axis titles,
    legend, fonts, outlines, the horizontal extent of the shapes) are
    left out. *)
Record layout := Layout {
  layout_title : val;                    (* title *)
  layout_yMax : val;                     (* yaxis.range[1] *)
  layout_margin : option margin;         (* margin *)
  layout_function_call_x : float;        (* annotations[0].x *)
  layout_function_call_xref : string;    (* annotations[0].xref *)
  layout_returnValueSize : val;
  layout_callStackFrameSize : val;
}.

(** The computed entries of the literal.  When they are evaluated
    [returnValueSize] has passed the type check and
    [callStackFrameSize] is the result of [+], so both are primitives
    and none of these expressions can throw. *)
Definition function_call_y (lay : layout) : result val :=  (* annotations[0].y *)
  half ← js_div (layout_callStackFrameSize lay) #2;
  js_add (layout_returnValueSize lay) half.

Definition bytes_y (lay : layout) : result val :=          (* annotations[1].y *)
  top ← js_add (layout_returnValueSize lay) (layout_callStackFrameSize lay);
  js_add top #2.

Definition bytes_text (lay : layout) : result string :=    (* annotations[1].text *)
  size ← to_str (layout_callStackFrameSize lay);
  Ok (size +:+ " Bytes").

Definition line_y (lay : layout) : val :=                  (* shapes[0].y0 and y1 *)
  layout_returnValueSize lay.

Definition rect_y0 (lay : layout) : result val :=          (* shapes[1].y0 *)
  js_sub (layout_returnValueSize lay) #4.

Definition rect_y1 (lay : layout) : result val :=          (* shapes[1].y1 *)
  top ← js_add (layout_returnValueSize lay) (layout_callStackFrameSize lay);
  js_add top #4.

(** The anchor element created for the attribution link. *)
Record anchor := Anchor {
  href : string;
  target : string;
  textContent : string;
  classList : list string;
}.

(** Calls that leave the function: [Plotly.newPlot(container, data,
    layout, config)], the constant [config] left out, and
    [document.getElementById(container).appendChild(child)].  Both
    collaborators are opaque and assumed to return normally.  A value is
    handed on as it is: an array or object among them is the caller's
    own, not a copy. *)
Inductive effect :=
| Plotly_newPlot (container : val) (data : list bar) (lay : layout)
| appendChild (container : val) (child : anchor).

(** Only arrays and objects have an identity that could be shared. *)
Definition primitive (v : val) : bool :=
  match v with
  | VArr _ | VObj _ => false
  | _ => true
  end.

(** A call hands on primitives only: whatever objects the callee
    receives were created by the function itself. *)
Definition shares_nothing (e : effect) : Prop :=
  match e with
  | Plotly_newPlot container data lay =>
      primitive container /\
      Forall (fun x => primitive (bar_y x) /\ primitive (marker_color x)) data /\
      primitive (layout_title lay) /\ primitive (layout_yMax lay) /\
      primitive (layout_returnValueSize lay) /\ primitive (layout_callStackFrameSize lay)
  | appendChild container _ => primitive container
  end.

#[export] Instance shares_nothing_dec e : Decision (shares_nothing e).
Proof. destruct e; apply _. Defined.

(** ** Statements

    A statement may read the heap and call out: it lives in [M], which
    threads the [world]. *)

Definition loc := nat.

(** [heap] maps a reference to the object it denotes; the caller's
    options object lives there.  [effects] is the log, oldest first.
    [collaborator] is what the callees, which are outside the program,
    make of the heap when a call hands them arrays or objects of it:
    they may write to what they hold. *)
Record world := World {
  heap : loc -> object;
  effects : list effect;
  collaborator : effect -> (loc -> object) -> loc -> object;
}.

Definition M (A : Type) : Type := world -> world * result A.

#[export] Instance M_ret : MRet M := fun A a w => (w, Ok a).

#[export] Instance M_bind : MBind M := fun A B k m w =>
  match m w with
  | (w', Ok a) => k a w'
  | (w', Throw e) => (w', Throw e)
  | (w', Unmodelled) => (w', Unmodelled)
  end.

(** Evaluate an expression inside a statement. *)
Definition lift {A} (r : result A) : M A := fun w => (w, r).

Definition throw {A} (e : exn) : M A := lift (Throw e).

(** [options[arg]], read from the object [options] refers to. *)
Definition get (options : loc) (arg : string) : M val :=
  fun w => (w, Ok (property (heap w options) arg)).

(** Make the call [e].  The callee reaches the heap only through what
    it is handed: given primitives alone it leaves the heap as it is. *)
Definition emit (e : effect) : M unit :=
  fun w => ({| heap := if decide (shares_nothing e) then heap w
                        else collaborator w e (heap w);
               effects := effects w ++ [e];
               collaborator := collaborator w |}, Ok tt).

(** ** Library operations used by the function *)

(** [xs.forEach(callback)] *)
Fixpoint forEach {A} (xs : list A) (callback : A -> M unit) : M unit :=
  match xs with
  | [] => mret tt
  | x :: rest => callback x;; forEach rest callback
  end.

(** Reading a property through a destructuring pattern such as
    [({size}) => ...]: [null] and [undefined] cannot be destructured;
    a primitive or an array has none of the properties asked for here
    ([name], [size], [color]). *)
Definition destructure (e : val) (p : string) : result val :=
  match e with
  | VUndefined | VNull => Throw TypeError
  | VObj props => Ok (property props p)
  | _ => Ok VUndefined
  end.

Fixpoint reduce_from (callback : val -> val -> result val) (acc : val) (elems : list val)
    : result val :=
  match elems with
  | [] => Ok acc
  | e :: rest => acc' ← callback acc e; reduce_from callback acc' rest
  end.

(** [arr.reduce(callback, init)].  On [null] the property read fails, on
    a plain object [reduce] is not a function: a [TypeError] both ways. *)
Definition Array_reduce (arr : val) (callback : val -> val -> result val) (init : val)
    : result val :=
  match arr with
  | VArr elems => reduce_from callback init elems
  | _ => Throw TypeError
  end.

Fixpoint map_from {B} (callback : val -> nat -> result B) (index : nat) (elems : list val)
    : result (list B) :=
  match elems with
  | [] => Ok []
  | e :: rest =>
      b ← callback e index;
      bs ← map_from callback (S index) rest;
      Ok (b :: bs)
  end.

(** [arr.map(callback)], the callback receiving element and index. *)
Definition Array_map {B} (arr : val) (callback : val -> nat -> result B) : result (list B) :=
  match arr with
  | VArr elems => map_from callback 0%nat elems
  | _ => Throw TypeError
  end.

(** ** Constants and code shared by both revisions *)

Definition RETURN_VARIABLE : string := "Return Value".
Definition BEFORE_CALL : string := "Before Call".
Definition DURING_CALL : string := "During Call".
Definition AFTER_CALL : string := "After Call".

(** The type check at the head of [createCallStackChart]:
    [Object.entries(argumentTypeNames).forEach(...)], the table given as
    its entries in insertion order. *)
Definition check_argument_types (argumentTypeNames : list (string * string)) (options : loc)
    : M unit :=
  forEach argumentTypeNames (fun '(arg, type) =>
    v ← get options arg;
    if decide (typeof v = type) then mret tt
    else throw (Error ("Expected " +:+ arg +:+ " to be of type " +:+ type))).

(** The frame-size expression, identical in both revisions:
    [0 + returnValueSize * (returnValueOnCallStack ? 1 : 0)
       + callArgs.reduce((acc, {size}) => acc + size, 0)
       + (linkRegister ? 4 : 0) + 4 + padding],
    summed from the left, each operand evaluated when its turn comes. *)
Definition callStackFrameSize
    (returnValueSize returnValueOnCallStack callArgs linkRegister padding : val) : result val :=
  onStack ← js_mul returnValueSize (if to_boolean returnValueOnCallStack then #1 else #0);
  sum ← js_add #0 onStack;
  args ← Array_reduce callArgs
           (fun acc e => size ← destructure e "size"; js_add acc size) #0;
  sum ← js_add sum args;
  sum ← js_add sum (if to_boolean linkRegister then #4 else #0);
  sum ← js_add sum #4;
  js_add sum padding.

(** ** First revision: chart placed by [options.id] *)

Module ById.

Definition argumentTypeNames : list (string * string) :=
  [ ("id", "string");
    ("title", "string");
    ("returnValueSize", "number");
    ("returnValueOnCallStack", "boolean");
    ("callArgs", "object");
    ("linkRegister", "boolean");
    ("padding", "number");
    ("yMax", "number") ].

(** The layout literal. *)
Definition make_layout (title yMax returnValueSize callStackFrameSize : val) : layout :=
  {| layout_title := title;
     layout_yMax := yMax;
     layout_margin := Some {| margin_l := 40; margin_r := 0; margin_t := 100; margin_b := 40 |};
     layout_function_call_x := 0.38;
     layout_function_call_xref := "x";
     layout_returnValueSize := returnValueSize;
     layout_callStackFrameSize := callStackFrameSize |}.

(** [barStack(x, y, color, shape, text)] *)
Definition barStack (x : string) (y color : val) (shape text : string) : bar :=
  {| bar_x := x;
     bar_y := y;
     marker_color := color;
     pattern_shape := Some shape;
     bar_text := text |}.

(** The callback of [callArgs.map]: the pattern is matched, then the
    template literal is evaluated, which converts [name] to a string. *)
Definition argumentBar (e : val) (index : nat) : result bar :=
  name ← destructure e "name";
  size ← destructure e "size";
  color ← destructure e "color";
  label ← to_str name;
  Ok (barStack DURING_CALL size color ""
        ("Argument " +:+ pretty index +:+ " (" +:+ label +:+ ")")).

(** The array literal passed to [Plotly.newPlot] as its data, with the
    result of [callArgs.map] spliced in. *)
Definition traces (returnValueSize returnValueOnCallStack linkRegister padding : val)
    (argumentBars : list bar) : list bar :=
  [ barStack BEFORE_CALL returnValueSize (VStr "lightgrey") "" RETURN_VARIABLE;
    (if to_boolean returnValueOnCallStack
     then barStack DURING_CALL returnValueSize (VStr "lightgrey") ""
     else barStack DURING_CALL returnValueSize (VStr "lightblue") "/") RETURN_VARIABLE ]
  ++ (if to_boolean linkRegister
      then [barStack DURING_CALL #4 (VStr "lightgreen") "" "Link Register"]
      else [])
  ++ [ barStack DURING_CALL #4 (VStr "lightgreen") "" "Frame Pointer" ]
  ++ argumentBars
  ++ (if to_boolean returnValueOnCallStack
      then [barStack DURING_CALL returnValueSize (VStr "lightblue") "/" "Return Value"]
      else [])
  ++ [ barStack DURING_CALL padding (VStr "white") "" "Padding";
       barStack AFTER_CALL returnValueSize (VStr "lightblue") "" RETURN_VARIABLE ].

Definition sourceLink : anchor :=
  {| href := "https://github.com/JPHutchins/article-assets/blob/main/call-stack-chart.js";
     target := "_blank";
     textContent := "© 2024 JPHutchins + sparklerfish | Source Code";
     classList := ["source-link"] |}.

Definition createCallStackChart (options : loc) : M unit :=
  check_argument_types argumentTypeNames options;;
  id ← get options "id";
  title ← get options "title";
  returnValueSize ← get options "returnValueSize";
  returnValueOnCallStack ← get options "returnValueOnCallStack";
  callArgs ← get options "callArgs";
  linkRegister ← get options "linkRegister";
  padding ← get options "padding";
  yMax ← get options "yMax";
  frameSize ← lift (callStackFrameSize returnValueSize returnValueOnCallStack
                      callArgs linkRegister padding);
  let layout := make_layout title yMax returnValueSize frameSize in
  argumentBars ← lift (Array_map callArgs argumentBar);
  emit (Plotly_newPlot id
          (traces returnValueSize returnValueOnCallStack linkRegister padding argumentBars)
          layout);;
  emit (appendChild id sourceLink).

End ById.

(** ** Second revision: chart placed in ['call-stack-chart'] *)

Module Fixed.

Definition argumentTypeNames : list (string * string) :=
  [ ("title", "string");
    ("returnValueSize", "number");
    ("returnValueOnCallStack", "boolean");
    ("callArgs", "object");
    ("linkRegister", "boolean");
    ("padding", "number");
    ("yMax", "number") ].

(** The layout literal: no margin, the "Function Call" label placed on
    the paper. *)
Definition make_layout (title yMax returnValueSize callStackFrameSize : val) : layout :=
  {| layout_title := title;
     layout_yMax := yMax;
     layout_margin := None;
     layout_function_call_x := 0.33;
     layout_function_call_xref := "paper";
     layout_returnValueSize := returnValueSize;
     layout_callStackFrameSize := callStackFrameSize |}.

(** [barStack(x, y, color, text)] *)
Definition barStack (x : string) (y color : val) (text : string) : bar :=
  {| bar_x := x;
     bar_y := y;
     marker_color := color;
     pattern_shape := None;
     bar_text := text |}.

Definition argumentBar (e : val) (index : nat) : result bar :=
  name ← destructure e "name";
  size ← destructure e "size";
  color ← destructure e "color";
  label ← to_str name;
  Ok (barStack DURING_CALL size color
        ("Argument " +:+ pretty index +:+ " (" +:+ label +:+ ")")).

Definition traces (returnValueSize returnValueOnCallStack linkRegister padding : val)
    (argumentBars : list bar) : list bar :=
  [ barStack BEFORE_CALL returnValueSize (VStr "lightgrey") RETURN_VARIABLE;
    barStack DURING_CALL returnValueSize
      (if to_boolean returnValueOnCallStack then VStr "lightgrey" else VStr "lightblue")
      RETURN_VARIABLE ]
  ++ (if to_boolean linkRegister
      then [barStack DURING_CALL #4 (VStr "lightgreen") "Link Register"]
      else [])
  ++ [ barStack DURING_CALL #4 (VStr "lightgreen") "Frame Pointer" ]
  ++ argumentBars
  ++ (if to_boolean returnValueOnCallStack
      then [barStack DURING_CALL returnValueSize (VStr "lightblue") "Return Value"]
      else [])
  ++ [ barStack DURING_CALL padding (VStr "white") "Padding";
       barStack AFTER_CALL returnValueSize (VStr "lightblue") RETURN_VARIABLE ].

Definition createCallStackChart (options : loc) : M unit :=
  check_argument_types argumentTypeNames options;;
  title ← get options "title";
  returnValueSize ← get options "returnValueSize";
  returnValueOnCallStack ← get options "returnValueOnCallStack";
  callArgs ← get options "callArgs";
  linkRegister ← get options "linkRegister";
  padding ← get options "padding";
  yMax ← get options "yMax";
  frameSize ← lift (callStackFrameSize returnValueSize returnValueOnCallStack
                      callArgs linkRegister padding);
  let layout := make_layout title yMax returnValueSize frameSize in
  argumentBars ← lift (Array_map callArgs argumentBar);
  emit (Plotly_newPlot (VStr "call-stack-chart")
          (traces returnValueSize returnValueOnCallStack linkRegister padding argumentBars)
          layout).

End Fixed.

(** ** Well-typed options

    The typedef [ArgumentType] of the source, with byte counts as
    integers, and the options object that carries it. *)

Record CallArg := {
  arg_name : string;
  arg_size : Z;
  arg_color : string;
}.

Record ArgumentType := {
  opt_id : string;
  opt_title : string;
  opt_returnValueSize : Z;
  opt_returnValueOnCallStack : bool;
  opt_callArgs : list CallArg;
  opt_linkRegister : bool;
  opt_padding : Z;
  opt_yMax : Z;
}.

(** The [callArgs] entry [{name, size, color}]. *)
Definition entry (a : CallArg) : val :=
  VObj (<["name" := VStr (arg_name a)]>
        (<["size" := #(arg_size a)]>
        (<["color" := VStr (arg_color a)]> ∅))).

(** The options object with exactly the eight fields of the typedef. *)
Definition to_object (c : ArgumentType) : object :=
  <["id" := VStr (opt_id c)]>
  (<["title" := VStr (opt_title c)]>
  (<["returnValueSize" := #(opt_returnValueSize c)]>
  (<["returnValueOnCallStack" := VBool (opt_returnValueOnCallStack c)]>
  (<["callArgs" := VArr (entry <$> opt_callArgs c)]>
  (<["linkRegister" := VBool (opt_linkRegister c)]>
  (<["padding" := #(opt_padding c)]>
  (<["yMax" := #(opt_yMax c)]> ∅))))))).

(** ** Vocabulary for the statements *)

(** The two revisions side by side. *)
Inductive revision := Rev_ById | Rev_Fixed.

Definition createCallStackChart (r : revision) : loc -> M unit :=
  match r with
  | Rev_ById => ById.createCallStackChart
  | Rev_Fixed => Fixed.createCallStackChart
  end.

Definition argumentTypeNames (r : revision) : list (string * string) :=
  match r with
  | Rev_ById => ById.argumentTypeNames
  | Rev_Fixed => Fixed.argumentTypeNames
  end.

Definition make_layout (r : revision) : val -> val -> val -> val -> layout :=
  match r with
  | Rev_ById => ById.make_layout
  | Rev_Fixed => Fixed.make_layout
  end.

Definition argumentBar (r : revision) : val -> nat -> result bar :=
  match r with
  | Rev_ById => ById.argumentBar
  | Rev_Fixed => Fixed.argumentBar
  end.

Definition traces (r : revision) : val -> val -> val -> val -> list bar -> list bar :=
  match r with
  | Rev_ById => ById.traces
  | Rev_Fixed => Fixed.traces
  end.

(** The calls a completed invocation makes, in order. *)
Definition calls (r : revision) (id : val) (data : list bar) (lay : layout) : list effect :=
  match r with
  | Rev_ById => [Plotly_newPlot id data lay; appendChild id ById.sourceLink]
  | Rev_Fixed => [Plotly_newPlot (VStr "call-stack-chart") data lay]
  end.

(** The world after those calls. *)
Definition after (w : world) (es : list effect) : world :=
  foldl (fun w e => (emit e w).1) w es.

(** One row of the type table holds of an object. *)
Definition has_type (o : object) (row : string * string) : Prop :=
  typeof (property o row.1) = row.2.

#[export] Instance has_type_dec o row : Decision (has_type o row).
Proof. unfold has_type. apply _. Defined.

(** The object passes the type table. *)
Definition accepted (table : list (string * string)) (o : object) : Prop :=
  Forall (has_type o) table.

(** The message of the error raised for a row. *)
Definition expected (row : string * string) : exn :=
  Error ("Expected " +:+ row.1 +:+ " to be of type " +:+ row.2).

(** The bars of one column, bottom to top. *)
Definition column (x : string) (data : list bar) : list bar :=
  filter (fun b => bar_x b = x) data.

(** The bars carrying a given label. *)
Definition labelled (text : string) (data : list bar) : list bar :=
  filter (fun b => bar_text b = text) data.

(** The pattern a revision draws where the first revision asks for
    [shape]. *)
Definition pattern (r : revision) (shape : string) : option string :=
  match r with
  | Rev_ById => Some shape
  | Rev_Fixed => None
  end.

(** How a statement ends once its pure part has produced the calls to
    make: all of them, or none. *)
Definition finish (w : world) (r : result (list effect)) : world * result unit :=
  match r with
  | Ok es => (after w es, Ok tt)
  | Throw e => (w, Throw e)
  | Unmodelled => (w, Unmodelled)
  end.

(** ** Closed forms and observations *)

(** What an invocation on an accepted object computes before it calls
    out: the frame size, the argument bars, and from them the calls. *)
Definition prepared (r : revision) (o : object) : result (list effect) :=
  frameSize ← callStackFrameSize (property o "returnValueSize")
                (property o "returnValueOnCallStack") (property o "callArgs")
                (property o "linkRegister") (property o "padding");
  argumentBars ← Array_map (property o "callArgs") (argumentBar r);
  Ok (calls r (property o "id")
        (traces r (property o "returnValueSize") (property o "returnValueOnCallStack")
           (property o "linkRegister") (property o "padding") argumentBars)
        (make_layout r (property o "title") (property o "yMax")
           (property o "returnValueSize") frameSize)).

(** An array element the callbacks can destructure. *)
Definition destructurable (e : val) : bool :=
  match e with
  | VUndefined | VNull => false
  | _ => true
  end.

(** What destructuring reads from such an element. *)
Definition own (e : val) (p : string) : val :=
  match e with
  | VObj props => property props p
  | _ => VUndefined
  end.

(** The callback of [callArgs.reduce]. *)
Abbreviation add_size :=
  (fun acc e : val => destructure e "size" ≫= fun size : val => js_add acc size).

(** A value that converts to a string, and the embedding says to which. *)
Definition printable (v : val) : bool :=
  match to_str v with
  | Ok _ => true
  | _ => false
  end.

(** The entries' names all convert to strings. *)
Definition named (elems : list val) : bool :=
  forallb (fun e => printable (own e "name")) elems.

(** An entry's name as the label shows it. *)
Definition label_of (e : val) : string :=
  match to_str (own e "name") with
  | Ok s => s
  | _ => ""
  end.

(** The bar drawn for the entry at [index]: in the During Call column,
    of the entry's size and colour, without pattern, labelled with the
    index and the name. *)
Definition argument_bar (r : revision) (index : nat) (e : val) : bar :=
  {| bar_x := "During Call";
     bar_y := own e "size";
     marker_color := own e "color";
     pattern_shape := pattern r "";
     bar_text := "Argument " +:+ pretty index +:+ " (" +:+ label_of e +:+ ")" |}.

(** A primitive other than a string: [+] adds it as a number. *)
Definition addable (v : val) : bool :=
  match v with
  | VUndefined | VNull | VBool _ | VNum _ => true
  | _ => false
  end.

(** A value that [+] treats as a string: a string, or an array or object
    that converts to one. *)
Definition stringy (v : val) : bool :=
  match to_primitive v with
  | Ok (VStr _) => true
  | _ => false
  end.

(** The total of the declared argument sizes. *)
Fixpoint total_size (args : list CallArg) : Z :=
  match args with
  | [] => 0
  | a :: rest => arg_size a + total_size rest
  end.

(** The frame size in closed form. *)
Definition frame_bytes (returnValueSize : Z) (returnValueOnCallStack : bool)
    (callArgs : list CallArg) (linkRegister : bool) (padding : Z) : Z :=
  (if returnValueOnCallStack then returnValueSize else 0)
  + total_size callArgs + (if linkRegister then 4 else 0) + 4 + padding.

(** The sum of a list of sizes. *)
Definition sum_of (sizes : list Z) : Z := foldr Z.add 0 sizes.

(** How far a sum of these sizes can get from zero on its way. *)
Definition magnitude (sizes : list Z) : Z :=
  foldr (fun size rest => Z.abs size + rest) 0 sizes.

(** Byte counts small enough for every sum the function and the layout
    form from them to be exact: twice the return value (the frame is
    stacked on it and may hold it again), the arguments, the padding,
    and 12 for the two registers and the 4 by which the dotted rectangle
    overshoots, stay within 2^53. *)
Definition exact (c : ArgumentType) : Prop :=
  2 * Z.abs (opt_returnValueSize c) + magnitude (arg_size <$> opt_callArgs c)
  + 12 + Z.abs (opt_padding c) <= limit.

(** What [returnValueSize] contributes to the frame, when that is an
    integer: itself on the call stack, nothing in registers, where
    multiplying by 0 needs a finite number to give 0. *)
Definition on_stack (returnValueSize : number) (returnValueOnCallStack : bool) : option Z :=
  match returnValueOnCallStack, returnValueSize with
  | true, Int z => Some z
  | true, _ => None
  | false, n => if finite n then Some 0 else None
  end.

(** The argument bars of well-typed options. *)
Definition argument_bars (r : revision) (args : list CallArg) : list bar :=
  imap (fun i a => {| bar_x := "During Call";
                      bar_y := #(arg_size a);
                      marker_color := VStr (arg_color a);
                      pattern_shape := pattern r "";
                      bar_text := "Argument " +:+ pretty i +:+ " (" +:+ arg_name a +:+ ")" |})
       args.

(** The data a well-typed invocation plots. *)
Definition chart_data (r : revision) (c : ArgumentType) : list bar :=
  traces r #(opt_returnValueSize c) (VBool (opt_returnValueOnCallStack c))
    (VBool (opt_linkRegister c)) #(opt_padding c) (argument_bars r (opt_callArgs c)).

(** The layout that goes with it. *)
Definition chart_layout (r : revision) (c : ArgumentType) : layout :=
  make_layout r (VStr (opt_title c)) #(opt_yMax c) #(opt_returnValueSize c)
    #(frame_bytes (opt_returnValueSize c) (opt_returnValueOnCallStack c)
        (opt_callArgs c) (opt_linkRegister c) (opt_padding c)).

(** The example of the specification: a 4-byte return value kept in
    registers, one 4-byte argument [x], a saved link register and 4
    bytes of padding. *)
Definition example : ArgumentType :=
  {| opt_id := "chart";
     opt_title := "Stack frame";
     opt_returnValueSize := 4;
     opt_returnValueOnCallStack := false;
     opt_callArgs := [ {| arg_name := "x"; arg_size := 4; arg_color := "red" |} ];
     opt_linkRegister := true;
     opt_padding := 4;
     opt_yMax := 32 |}.

(** A 32-byte struct returned through the call stack, as on the static
    page, with one 4-byte argument and the link register not saved. *)
Definition struct_return : ArgumentType :=
  {| opt_id := "call-stack-chart";
     opt_title := "Call Stack Visualization";
     opt_returnValueSize := 32;
     opt_returnValueOnCallStack := true;
     opt_callArgs := [ {| arg_name := "i32"; arg_size := 4; arg_color := "lightpink" |} ];
     opt_linkRegister := false;
     opt_padding := 4;
     opt_yMax := 96 |}.

(** A world whose every reference denotes [o], nothing plotted yet. *)
Definition holding (o : object) : world :=
  {| heap := fun _ => o; effects := []; collaborator := fun _ h => h |}.

(** The fields the chart depends on, by the shape the type check
    vouches for, with [callArgs] an array. *)
Definition reads (o : object) (rv : number) (b : bool) (elems : list val)
    (lr : bool) (p : number) : Prop :=
  property o "returnValueSize" = VNum rv /\
  property o "returnValueOnCallStack" = VBool b /\
  property o "callArgs" = VArr elems /\
  property o "linkRegister" = VBool lr /\
  property o "padding" = VNum p.

(** The frame-size expression on those fields evaluates to [frameSize]:
    every entry can be destructured, and the sizes convert and add. *)
Definition frame_size_is (rv : number) (b : bool) (elems : list val) (lr : bool)
    (p : number) (frameSize : val) : Prop :=
  callStackFrameSize (VNum rv) (VBool b) (VArr elems) (VBool lr) (VNum p) = Ok frameSize.

(** The bars drawn for call arguments: those labelled ["Argument ..."]. *)
Definition argument_segments (data : list bar) : list bar :=
  filter (fun b => String.prefix "Argument " (bar_text b)) data.

(** The height a stack of bars reaches: their [y] added up from 0. *)
Definition total_height (data : list bar) : result val :=
  reduce_from js_add #0 (bar_y <$> data).

(** A bar without its fill pattern. *)
Definition plain (x : bar) : bar :=
  {| bar_x := bar_x x; bar_y := bar_y x; marker_color := marker_color x;
     pattern_shape := None; bar_text := bar_text x |}.

(** The frame size an invocation reports to Plotly, if it plots. *)
Fixpoint plotted_frame_size (es : list effect) : option val :=
  match es with
  | [] => None
  | Plotly_newPlot _ _ lay :: _ => Some (layout_callStackFrameSize lay)
  | _ :: rest => plotted_frame_size rest
  end.

(** The frame size reported for well-typed options [c], run on their
    own in a fresh world. *)
Definition frame_size_of (r : revision) (c : ArgumentType) : option val :=
  plotted_frame_size (effects (createCallStackChart r 0%nat (holding (to_object c))).1).


Definition set_callArgs (args : list CallArg) (c : ArgumentType) : ArgumentType :=
  {| opt_id := opt_id c; opt_title := opt_title c;
     opt_returnValueSize := opt_returnValueSize c;
     opt_returnValueOnCallStack := opt_returnValueOnCallStack c;
     opt_callArgs := args; opt_linkRegister := opt_linkRegister c;
     opt_padding := opt_padding c; opt_yMax := opt_yMax c |}.


Definition set_padding (z : Z) (c : ArgumentType) : ArgumentType :=
  {| opt_id := opt_id c; opt_title := opt_title c;
     opt_returnValueSize := opt_returnValueSize c;
     opt_returnValueOnCallStack := opt_returnValueOnCallStack c;
     opt_callArgs := opt_callArgs c; opt_linkRegister := opt_linkRegister c;
     opt_padding := z; opt_yMax := opt_yMax c |}.


(** The example with its argument's colour given as an array of two. *)
Definition two_tone : object :=
  <["callArgs" := VArr [VObj (<["name" := VStr "x"]> (<["size" := #4]>
                          (<["color" := VArr [VStr "red"; VStr "blue"]]> ∅)))]]>
    (to_object example).


(** The example with no padding and its argument called "Padding". *)
Definition padding_named : object :=
  <["padding" := #0]>
    (<["callArgs" := VArr [VObj (<["name" := VStr "Padding"]> (<["size" := #8]>
                             (<["color" := VStr "red"]> ∅)))]]>
       (to_object example)).

(** The example with its argument's size given as the string ["4"], and
    with no size given at all. *)
Definition string_sized : object :=
  <["callArgs" := VArr [VObj (<["name" := VStr "x"]> (<["size" := VStr "4"]>
                          (<["color" := VStr "red"]> ∅)))]]>
    (to_object example).

Definition unsized : object :=
  <["callArgs" := VArr [VObj (<["name" := VStr "x"]> (<["color" := VStr "red"]> ∅))]]>
    (to_object example).

(** The example with two arguments of the same name. *)
Definition namesakes : ArgumentType :=
  set_callArgs [ {| arg_name := "x"; arg_size := 4; arg_color := "red" |};
                 {| arg_name := "x"; arg_size := 8; arg_color := "red" |} ] example.

(** A string without a space in it, as a decimal numeral is. *)
Fixpoint spaceless (s : string) : Prop :=
  match s with
  | EmptyString => True
  | String c rest => c <> " "%char /\ spaceless rest
  end.

(** The During Call column as the specification lists it, bottom to
    top, around the bars [arguments] drawn for the call arguments: the
    return value, light grey and plain when it is on the call stack and
    light blue and hatched when it is in registers; the link register if
    it is saved; the frame pointer; the arguments; the return value once
    more, light blue and hatched, if it is on the call stack; the
    padding.  (The second revision draws no pattern.) *)
Definition during_call_column (r : revision) (rv : val) (b lr : bool) (p : val)
    (arguments : list bar) : list bar :=
  [ {| bar_x := "During Call"; bar_y := rv;
       marker_color := VStr (if b then "lightgrey" else "lightblue");
       pattern_shape := pattern r (if b then "" else "/");
       bar_text := "Return Value" |} ]
  ++ (if lr
      then [ {| bar_x := "During Call"; bar_y := #4; marker_color := VStr "lightgreen";
                pattern_shape := pattern r ""; bar_text := "Link Register" |} ]
      else [])
  ++ [ {| bar_x := "During Call"; bar_y := #4; marker_color := VStr "lightgreen";
          pattern_shape := pattern r ""; bar_text := "Frame Pointer" |} ]
  ++ arguments
  ++ (if b
      then [ {| bar_x := "During Call"; bar_y := rv; marker_color := VStr "lightblue";
                pattern_shape := pattern r "/"; bar_text := "Return Value" |} ]
      else [])
  ++ [ {| bar_x := "During Call"; bar_y := p; marker_color := VStr "white";
          pattern_shape := pattern r ""; bar_text := "Padding" |} ].

(** * Properties *)

(** ** Numbers *)

Lemma safe_spec z : safe z = true <-> - limit <= z <= limit.
Proof. unfold safe. rewrite andb_true_iff, !Z.leb_le. tauto. Qed.

Lemma num_add_exact x y :
  - limit <= x <= limit -> - limit <= y <= limit -> - limit <= x + y <= limit ->
  num_add (Int x) (Int y) = Int (x + y).
Proof.
  intros Hx Hy Hxy. unfold num_add, exactly.
  by rewrite (proj2 (safe_spec x) Hx), (proj2 (safe_spec y) Hy), (proj2 (safe_spec _) Hxy).
Qed.

Lemma num_sub_exact x y :
  - limit <= x <= limit -> - limit <= y <= limit -> - limit <= x - y <= limit ->
  num_sub (Int x) (Int y) = Int (x - y).
Proof.
  intros Hx Hy Hxy. unfold num_sub, exactly.
  by rewrite (proj2 (safe_spec x) Hx), (proj2 (safe_spec y) Hy), (proj2 (safe_spec _) Hxy).
Qed.

Lemma num_mul_exact x y :
  - limit <= x <= limit -> - limit <= y <= limit -> - limit <= x * y <= limit ->
  num_mul (Int x) (Int y) = Int (x * y).
Proof.
  intros Hx Hy Hxy. unfold num_mul, exactly.
  by rewrite (proj2 (safe_spec x) Hx), (proj2 (safe_spec y) Hy), (proj2 (safe_spec _) Hxy).
Qed.

Lemma num_add_NaN_r n : num_add n NaN = NaN.
Proof. by destruct n. Qed.

Lemma num_add_NaN_l n : num_add NaN n = NaN.
Proof. by destruct n. Qed.

(** A finite number times 0 is 0. *)
Lemma num_mul_0_r n : finite n = true -> num_mul n (Int 0) = Int 0.
Proof.
  destruct n as [z| |f]; cbn [finite]; intros Hfinite; [|discriminate|].
  - apply safe_spec in Hfinite. rewrite num_mul_exact; [f_equal; lia|done|done|].
    unfold limit. lia.
  - unfold num_mul, exactly, to_float, norm. rewrite mul_spec.
    change (Prim2SF (of_Z 0)) with (S754_zero false).
    by destruct (Prim2SF f).
Qed.

(** ** Running the monads *)

Lemma run_bind {A B} (m : M A) (k : A -> M B) (w : world) :
  (m ≫= k) w =
  match m w with
  | (w', Ok a) => k a w'
  | (w', Throw e) => (w', Throw e)
  | (w', Unmodelled) => (w', Unmodelled)
  end.
Proof. reflexivity. Qed.

Lemma run_get options arg (k : val -> M unit) w :
  (get options arg ≫= k) w = k (property (heap w options) arg) w.
Proof. reflexivity. Qed.

Lemma after_effects w es : effects (after w es) = effects w ++ es.
Proof.
  unfold after. revert w. induction es as [|e es IH]; intros w; cbn [foldl].
  - by rewrite app_nil_r.
  - rewrite IH. cbn. by rewrite <- app_assoc.
Qed.

Lemma after_inj w es es' : after w es = after w es' -> es = es'.
Proof.
  intros Heq. apply (f_equal effects) in Heq. rewrite !after_effects in Heq.
  by apply app_inv_head in Heq.
Qed.

Lemma completes_inj w es es' (res res' : result unit) :
  (after w es, res) = (after w es', res') -> es = es'.
Proof. intros Heq. apply (f_equal fst) in Heq. by apply after_inj in Heq. Qed.

Lemma after_heap w es : Forall shares_nothing es -> heap (after w es) = heap w.
Proof.
  unfold after. intros Hes. revert w. induction Hes as [|e es He _ IH]; intros w;
    cbn [foldl]; [reflexivity|].
  rewrite IH. cbn. by rewrite decide_True.
Qed.

(** ** The type check *)

Lemma check_passes table options w :
  accepted table (heap w options) ->
  check_argument_types table options w = (w, Ok tt).
Proof.
  unfold check_argument_types.
  induction 1 as [|[arg type] rest Hrow _ IH]; [reflexivity|].
  cbn [forEach]. rewrite run_bind, run_get.
  unfold has_type in Hrow; cbn in Hrow.
  rewrite decide_True by exact Hrow. exact IH.
Qed.

Lemma check_throws pre row post options w :
  Forall (has_type (heap w options)) pre ->
  ¬ has_type (heap w options) row ->
  check_argument_types (pre ++ row :: post) options w = (w, Throw (expected row)).
Proof.
  unfold check_argument_types. intros Hpre Hrow.
  induction Hpre as [|[arg type] rest Hhd _ IH]; cbn [app forEach].
  - destruct row as [arg type]. rewrite run_bind, run_get.
    rewrite decide_False by exact Hrow. reflexivity.
  - rewrite run_bind, run_get.
    unfold has_type in Hhd; cbn in Hhd.
    rewrite decide_True by exact Hhd. exact IH.
Qed.

(** A table that does not hold has a first row that fails. *)
Lemma first_mismatch table o :
  ¬ accepted table o ->
  exists pre row post,
    table = pre ++ row :: post /\ Forall (has_type o) pre /\ ¬ has_type o row.
Proof.
  unfold accepted. induction table as [|row rest IH]; intros Hno.
  - destruct Hno. constructor.
  - destruct (decide (has_type o row)) as [Hrow|Hrow].
    + destruct IH as (pre & bad & post & -> & Hpre & Hbad).
      { intros Hrest. apply Hno. by constructor. }
      exists (row :: pre), bad, post. split; [done|]. split; [by constructor|done].
    + exists [], row, rest. split; [done|]. split; [constructor|done].
Qed.

(** ** One invocation, in closed form *)

Lemma run_rejected r options w pre row post :
  argumentTypeNames r = pre ++ row :: post ->
  Forall (has_type (heap w options)) pre ->
  ¬ has_type (heap w options) row ->
  createCallStackChart r options w = (w, Throw (expected row)).
Proof.
  intros Htable Hpre Hrow.
  pose proof (check_throws pre row post options w Hpre Hrow) as Hcheck.
  destruct r; cbn [createCallStackChart argumentTypeNames] in *;
    unfold ById.createCallStackChart, Fixed.createCallStackChart;
    rewrite run_bind, Htable, Hcheck; reflexivity.
Qed.

Lemma run_accepted r options w :
  accepted (argumentTypeNames r) (heap w options) ->
  createCallStackChart r options w = finish w (prepared r (heap w options)).
Proof.
  intros Hok. pose proof (check_passes _ options w Hok) as Hcheck.
  unfold prepared.
  destruct r; cbn [createCallStackChart argumentTypeNames argumentBar traces calls make_layout] in *;
    unfold ById.createCallStackChart, Fixed.createCallStackChart;
    rewrite run_bind, Hcheck; rewrite !run_get; rewrite run_bind; unfold lift;
    destruct (callStackFrameSize _ _ _ _ _) as [frameSize| |]; try reflexivity;
    rewrite run_bind;
    destruct (Array_map _ _) as [argumentBars| |]; try reflexivity;
    reflexivity.
Qed.

(** ** What [typeof] tells about a value *)

Lemma typeof_number v : typeof v = "number" -> exists n, v = VNum n.
Proof. destruct v; try discriminate; eauto. Qed.


Lemma accepted_row table o arg type :
  accepted table o -> (arg, type) ∈ table -> typeof (property o arg) = type.
Proof.
  unfold accepted. rewrite Forall_forall. intros Hall Hin. exact (Hall _ Hin).
Qed.


(** ** Operators on numbers *)

Lemma js_add_num a b : js_add (VNum a) (VNum b) = Ok (VNum (num_add a b)).
Proof. reflexivity. Qed.

Lemma js_sub_num a b : js_sub (VNum a) (VNum b) = Ok (VNum (num_sub a b)).
Proof. reflexivity. Qed.

Lemma js_mul_num a b : js_mul (VNum a) (VNum b) = Ok (VNum (num_mul a b)).
Proof. reflexivity. Qed.

Lemma js_add_int x y :
  - limit <= x <= limit -> - limit <= y <= limit -> - limit <= x + y <= limit ->
  js_add #x #y = Ok #(x + y).
Proof. intros Hx Hy Hxy. by rewrite js_add_num, num_add_exact. Qed.

(** ** The array callbacks *)

Lemma destructure_ok e p : destructurable e = true -> destructure e p = Ok (own e p).
Proof. destruct e; first [discriminate | reflexivity]. Qed.

Lemma destructure_throws e p : destructurable e = false -> destructure e p = Throw TypeError.
Proof. destruct e; first [discriminate | reflexivity]. Qed.

(** A [reduce] that returns has destructured every element. *)
Lemma reduce_destructured elems acc total :
  reduce_from add_size acc elems = Ok total -> forallb destructurable elems = true.
Proof.
  revert acc. induction elems as [|e rest IH]; intros acc; [reflexivity|].
  cbn [reduce_from forallb]. destruct (destructurable e) eqn:He.
  - rewrite (destructure_ok e "size" He). cbn [mbind result_bind].
    destruct (js_add acc (own e "size")) as [acc'| |]; try discriminate. apply IH.
  - rewrite (destructure_throws e "size" He). discriminate.
Qed.

Lemma reduce_own elems acc :
  forallb destructurable elems = true ->
  reduce_from add_size acc elems
  = reduce_from js_add acc ((fun e => own e "size") <$> elems).
Proof.
  revert acc. induction elems as [|e rest IH]; intros acc Hall; [reflexivity|].
  cbn in Hall. apply andb_prop in Hall as [He Hrest].
  cbn [reduce_from fmap list_fmap]. rewrite (destructure_ok e "size" He).
  cbn [mbind result_bind]. destruct (js_add acc (own e "size")); try reflexivity.
  by apply IH.
Qed.

Lemma argumentBar_ok r e index :
  destructurable e = true -> printable (own e "name") = true ->
  argumentBar r e index = Ok (argument_bar r index e).
Proof.
  intros He Hname. unfold printable in Hname. unfold argument_bar, label_of.
  destruct r; cbn [argumentBar]; unfold ById.argumentBar, Fixed.argumentBar;
    rewrite !(destructure_ok e _ He); cbn [mbind result_bind];
    destruct (to_str (own e "name")); first [discriminate | reflexivity].
Qed.

Lemma map_ok r elems index :
  forallb destructurable elems = true -> named elems = true ->
  map_from (argumentBar r) index elems
  = Ok (imap (fun i => argument_bar r (index + i)) elems).
Proof.
  unfold named. revert index.
  induction elems as [|e rest IH]; intros index Hall Hnames; [reflexivity|].
  cbn in Hall, Hnames. apply andb_prop in Hall as [He Hrest].
  apply andb_prop in Hnames as [Hname Hnames].
  cbn [map_from imap]. rewrite (argumentBar_ok r e index He Hname). cbn [mbind result_bind].
  rewrite (IH (S index) Hrest Hnames). cbn [mbind result_bind]. rewrite Nat.add_0_r.
  do 2 f_equal. apply imap_ext. intros i x _. cbn. by rewrite Nat.add_succ_r.
Qed.


(** ** Well-typed options, evaluated *)

Lemma to_object_properties c o :
  to_object c ⊆ o ->
  property o "id" = VStr (opt_id c) /\
  property o "title" = VStr (opt_title c) /\
  property o "returnValueSize" = #(opt_returnValueSize c) /\
  property o "returnValueOnCallStack" = VBool (opt_returnValueOnCallStack c) /\
  property o "callArgs" = VArr (entry <$> opt_callArgs c) /\
  property o "linkRegister" = VBool (opt_linkRegister c) /\
  property o "padding" = #(opt_padding c) /\
  property o "yMax" = #(opt_yMax c).
Proof.
  intros Hsub. unfold property.
  repeat split;
    match goal with
    | |- default _ (o !! ?k) = ?v =>
        rewrite (lookup_weaken (to_object c) o k v); [reflexivity| |exact Hsub];
        unfold to_object; by simplify_map_eq
    end.
Qed.

Lemma to_object_accepted r c o : to_object c ⊆ o -> accepted (argumentTypeNames r) o.
Proof.
  intros Hsub.
  destruct (to_object_properties c o Hsub) as (H1 & H2 & H3 & H4 & H5 & H6 & H7 & H8).
  unfold accepted.
  destruct r; cbn [argumentTypeNames]; unfold ById.argumentTypeNames, Fixed.argumentTypeNames;
    repeat constructor; unfold has_type; cbn [fst snd];
    rewrite ?H1, ?H2, ?H3, ?H4, ?H5, ?H6, ?H7, ?H8; reflexivity.
Qed.

Lemma own_entry a :
  own (entry a) "name" = VStr (arg_name a) /\
  own (entry a) "size" = #(arg_size a) /\
  own (entry a) "color" = VStr (arg_color a).
Proof. unfold own, entry, property. repeat split; by simplify_map_eq. Qed.

Lemma entries_destructurable args : forallb destructurable (entry <$> args) = true.
Proof. induction args as [|a rest IH]; [reflexivity|exact IH]. Qed.

Lemma entries_named args : named (entry <$> args) = true.
Proof.
  unfold named. induction args as [|a rest IH]; [reflexivity|].
  cbn [fmap list_fmap forallb]. destruct (own_entry a) as (-> & _ & _). exact IH.
Qed.

Lemma label_of_entry a : label_of (entry a) = arg_name a.
Proof. unfold label_of. by destruct (own_entry a) as (-> & _ & _). Qed.

Lemma total_size_magnitude args :
  Z.abs (total_size args) <= magnitude (arg_size <$> args).
Proof.
  unfold magnitude.
  induction args as [|a rest IH]; cbn [total_size foldr fmap list_fmap]; lia.
Qed.

Lemma magnitude_nonneg sizes : 0 <= magnitude sizes.
Proof. unfold magnitude. induction sizes as [|s rest IH]; cbn [foldr]; lia. Qed.

Lemma fold_sizes args acc :
  Z.abs acc + magnitude (arg_size <$> args) <= limit ->
  reduce_from add_size #acc (entry <$> args) = Ok #(acc + total_size args).
Proof.
  unfold magnitude. revert acc. induction args as [|a rest IH]; intros acc Hbound;
    cbn [reduce_from fmap list_fmap total_size foldr] in *.
  - by rewrite Z.add_0_r.
  - pose proof (magnitude_nonneg (arg_size <$> rest)) as Hrest. unfold magnitude in Hrest.
    rewrite (destructure_ok (entry a) "size" eq_refl). cbn [mbind result_bind].
    destruct (own_entry a) as (_ & -> & _).
    rewrite js_add_int by lia. cbn [mbind result_bind].
    rewrite IH by lia. do 3 f_equal. lia.
Qed.

Lemma callStackFrameSize_typed rv b args lr p :
  Z.abs rv + magnitude (arg_size <$> args) + 8 + Z.abs p <= limit ->
  callStackFrameSize #rv (VBool b) (VArr (entry <$> args)) (VBool lr) #p
  = Ok #(frame_bytes rv b args lr p).
Proof.
  intros Hbound. pose proof (magnitude_nonneg (arg_size <$> args)) as Hargs.
  pose proof (total_size_magnitude args) as Htotal.
  assert (8 <= limit) as Hlimit by (unfold limit; lia).
  unfold callStackFrameSize, Array_reduce, frame_bytes. cbn [to_boolean].
  assert (js_mul #rv (if b then #1 else #0) = Ok #(if b then rv else 0)) as ->.
  { destruct b; rewrite js_mul_num, num_mul_exact by lia; do 3 f_equal; lia. }
  cbn [mbind result_bind]. rewrite js_add_int by (destruct b; lia).
  cbn [mbind result_bind]. rewrite fold_sizes by (cbn; lia).
  cbn [mbind result_bind]. rewrite js_add_int by (destruct b; lia).
  cbn [mbind result_bind].
  assert ((if lr then #4 else #0) = #(if lr then 4 else 0)) as -> by by destruct lr.
  rewrite js_add_int by (destruct b, lr; lia).
  cbn [mbind result_bind]. rewrite js_add_int by (destruct b, lr; lia).
  cbn [mbind result_bind]. rewrite js_add_int by (destruct b, lr; lia).
  do 3 f_equal; lia.
Qed.

Lemma Array_map_typed r args :
  Array_map (VArr (entry <$> args)) (argumentBar r) = Ok (argument_bars r args).
Proof.
  unfold Array_map.
  rewrite (map_ok r _ 0%nat (entries_destructurable args) (entries_named args)).
  f_equal. unfold argument_bars. rewrite imap_fmap. apply imap_ext.
  intros i a _. cbn. unfold argument_bar. rewrite label_of_entry.
  by destruct (own_entry a) as (_ & -> & ->).
Qed.

Lemma exact_bound c :
  exact c ->
  Z.abs (opt_returnValueSize c) + magnitude (arg_size <$> opt_callArgs c)
  + 8 + Z.abs (opt_padding c) <= limit.
Proof. unfold exact. lia. Qed.

Lemma run_typed r c options w :
  to_object c ⊆ heap w options ->
  exact c ->
  createCallStackChart r options w
  = (after w (calls r (VStr (opt_id c)) (chart_data r c) (chart_layout r c)), Ok tt).
Proof.
  intros Hsub Hexact. rewrite (run_accepted r options w (to_object_accepted r c _ Hsub)).
  destruct (to_object_properties c _ Hsub) as (H1 & H2 & H3 & H4 & H5 & H6 & H7 & H8).
  unfold prepared. rewrite H1, H2, H3, H4, H5, H6, H7, H8.
  rewrite (callStackFrameSize_typed _ _ _ _ _ (exact_bound c Hexact)), Array_map_typed.
  reflexivity.
Qed.

(** ** Accepted options, evaluated

    Past the type check the five fields the frame size depends on have
    the shapes [typeof] vouches for; [callArgs] may still be [null], a
    plain object, or an array holding anything. *)


(** On validated fields the frame size is what comes out of the sum of
    the entries' sizes, if anything does. *)
Lemma callStackFrameSize_array rv b elems lr p :
  callStackFrameSize (VNum rv) (VBool b) (VArr elems) (VBool lr) (VNum p)
  = (args ← reduce_from add_size #0 elems;
     sum ← js_add (VNum (num_add (Int 0) (num_mul rv (Int (if b then 1 else 0))))) args;
     sum ← js_add sum (if lr then #4 else #0);
     sum ← js_add sum #4;
     js_add sum (VNum p)).
Proof. by destruct b. Qed.


Lemma frame_size_is_destructurable rv b elems lr p frameSize :
  frame_size_is rv b elems lr p frameSize -> forallb destructurable elems = true.
Proof.
  unfold frame_size_is. rewrite callStackFrameSize_array.
  destruct (reduce_from add_size #0 elems) as [args| |] eqn:Hargs; try discriminate.
  intros _. exact (reduce_destructured _ _ _ Hargs).
Qed.

Lemma Array_map_array r elems :
  forallb destructurable elems = true -> named elems = true ->
  Array_map (VArr elems) (argumentBar r) = Ok (imap (argument_bar r) elems).
Proof. intros Hall Hnames. unfold Array_map. by rewrite (map_ok r elems 0%nat Hall Hnames). Qed.

(** An invocation that gets past the type check, finds in [callArgs] an
    array whose sizes add up and whose names print, plots these traces
    with this layout. *)
Lemma run_reads r options w rv b elems lr p frameSize :
  accepted (argumentTypeNames r) (heap w options) ->
  reads (heap w options) rv b elems lr p ->
  frame_size_is rv b elems lr p frameSize ->
  named elems = true ->
  createCallStackChart r options w
  = (after w (calls r (property (heap w options) "id")
                (traces r (VNum rv) (VBool b) (VBool lr) (VNum p)
                   (imap (argument_bar r) elems))
                (make_layout r (property (heap w options) "title")
                   (property (heap w options) "yMax") (VNum rv) frameSize)),
     Ok tt).
Proof.
  intros Hok (Hrv & Hb & Hargs & Hlr & Hp) Hsize Hnames.
  rewrite (run_accepted r options w Hok). unfold prepared.
  rewrite Hrv, Hb, Hargs, Hlr, Hp, Hsize. cbn [mbind result_bind].
  rewrite (Array_map_array r elems (frame_size_is_destructurable _ _ _ _ _ _ Hsize) Hnames).
  reflexivity.
Qed.

(** Whatever [prepared] returns is the revision's calls on some data
    and layout. *)
Lemma prepared_calls r o es :
  prepared r o = Ok es ->
  exists data lay, es = calls r (property o "id") data lay.
Proof.
  unfold prepared.
  destruct (callStackFrameSize _ _ _ _ _) as [frameSize| |]; try discriminate.
  cbn [mbind result_bind].
  destruct (Array_map _ _) as [argumentBars| |]; try discriminate.
  cbn [mbind result_bind]. intros [= <-]. by eexists _, _.
Qed.

(** An invocation raises and leaves the world as it was, or makes its
    calls and returns, or takes a step the embedding does not follow, no
    call made. *)
Lemma run_outcome r options w :
  (exists e, createCallStackChart r options w = (w, Throw e)) \/
  (exists data lay,
     createCallStackChart r options w
     = (after w (calls r (property (heap w options) "id") data lay), Ok tt)) \/
  createCallStackChart r options w = (w, Unmodelled).
Proof.
  destruct (decide (accepted (argumentTypeNames r) (heap w options))) as [Hok|Hno].
  - rewrite (run_accepted r options w Hok).
    destruct (prepared r (heap w options)) as [es|e|] eqn:Hprepared; cbn [finish]; eauto.
    destruct (prepared_calls _ _ _ Hprepared) as (data & lay & ->). eauto.
  - destruct (first_mismatch _ _ Hno) as (pre & row & post & Htable & Hpre & Hrow).
    left. exists (expected row). by apply (run_rejected r options w pre row post).
Qed.

(** ** The plotted columns *)

Lemma filter_all {A} (P : A -> Prop) `{!forall x, Decision (P x)} (l : list A) :
  Forall P l -> filter P l = l.
Proof.
  induction 1 as [|x l Hx _ IH]; [reflexivity|].
  by rewrite filter_cons_True, IH.
Qed.

Lemma filter_none {A} (P : A -> Prop) `{!forall x, Decision (P x)} (l : list A) :
  Forall (fun x => ¬ P x) l -> filter P l = [].
Proof.
  induction 1 as [|x l Hx _ IH]; [reflexivity|].
  by rewrite filter_cons_False.
Qed.

Lemma prefix_argument s : String.prefix "Argument " ("Argument " +:+ s) = true.
Proof. by destruct s. Qed.

(** The bars [callArgs.map] builds all stand in the During Call column
    and all carry a label that starts with ["Argument "]. *)
Lemma bars_during r elems :
  Forall (fun x => bar_x x = "During Call") (imap (argument_bar r) elems).
Proof.
  apply Forall_lookup. intros i x. rewrite list_lookup_imap.
  destruct (elems !! i) as [e|]; [|discriminate]. by intros [= <-].
Qed.

Lemma bars_labels r elems :
  Forall (fun x => exists s, bar_text x = "Argument " +:+ s) (imap (argument_bar r) elems).
Proof.
  apply Forall_lookup. intros i x. rewrite list_lookup_imap.
  destruct (elems !! i) as [e|]; [|discriminate]. intros [= <-]. cbn. eauto.
Qed.

(** The array literal of either revision, bar by bar. *)
Lemma traces_eq r rv b lr p bars :
  traces r rv (VBool b) (VBool lr) p bars =
  [ {| bar_x := "Before Call"; bar_y := rv; marker_color := VStr "lightgrey";
       pattern_shape := pattern r ""; bar_text := "Return Value" |} ]
  ++ during_call_column r rv b lr p bars
  ++ [ {| bar_x := "After Call"; bar_y := rv; marker_color := VStr "lightblue";
          pattern_shape := pattern r ""; bar_text := "Return Value" |} ].
Proof.
  unfold during_call_column. rewrite <- !app_assoc. destruct r, b, lr; reflexivity.
Qed.

Section Columns.

(** The data plotted around any argument bars that stand in the During
    Call column under labels starting with ["Argument "]. *)
Context (r : revision) (rv p : val) (b lr : bool) (bars : list bar).
Hypothesis during : Forall (fun x => bar_x x = "During Call") bars.
Hypothesis labels : Forall (fun x => exists s, bar_text x = "Argument " +:+ s) bars.

Lemma column_during_call_column :
  column "During Call" (during_call_column r rv b lr p bars)
  = during_call_column r rv b lr p bars.
Proof using during.
  unfold during_call_column, column.
  rewrite !filter_app, (filter_all _ bars during). by destruct b, lr.
Qed.

Lemma column_outside x :
  x <> "During Call" -> column x (during_call_column r rv b lr p bars) = [].
Proof using during.
  intros Hx. apply filter_none. unfold during_call_column.
  repeat (apply Forall_app; split);
    try (eapply Forall_impl; [exact during|]; cbn; congruence);
    destruct b, lr; repeat constructor; cbn; congruence.
Qed.

Lemma column_traces :
  column "During Call" (traces r rv (VBool b) (VBool lr) p bars)
  = during_call_column r rv b lr p bars.
Proof using during.
  rewrite traces_eq. unfold column at 1. rewrite !filter_app.
  fold (column "During Call" (during_call_column r rv b lr p bars)).
  rewrite column_during_call_column.
  rewrite !filter_cons_False, !filter_nil by discriminate. by rewrite app_nil_r.
Qed.

Lemma outer_columns_traces :
  column "Before Call" (traces r rv (VBool b) (VBool lr) p bars)
  = [ {| bar_x := "Before Call"; bar_y := rv; marker_color := VStr "lightgrey";
         pattern_shape := pattern r ""; bar_text := "Return Value" |} ] /\
  column "After Call" (traces r rv (VBool b) (VBool lr) p bars)
  = [ {| bar_x := "After Call"; bar_y := rv; marker_color := VStr "lightblue";
         pattern_shape := pattern r ""; bar_text := "Return Value" |} ].
Proof using during.
  rewrite traces_eq. split; unfold column; rewrite !filter_app.
  - fold (column "Before Call" (during_call_column r rv b lr p bars)).
    rewrite column_outside by discriminate.
    by rewrite filter_cons_True, filter_cons_False, !filter_nil by done.
  - fold (column "After Call" (during_call_column r rv b lr p bars)).
    rewrite column_outside by discriminate.
    by rewrite filter_cons_False, filter_cons_True, !filter_nil by done.
Qed.

Lemma labelled_bars text :
  (forall s, text <> "Argument " +:+ s) -> labelled text bars = [].
Proof using labels.
  intros Hne. apply filter_none. eapply Forall_impl; [exact labels|].
  cbn. intros x [s Hs] Heq. apply (Hne s). congruence.
Qed.

Lemma argument_segments_bars : argument_segments bars = bars.
Proof using labels.
  apply filter_all. eapply Forall_impl; [exact labels|].
  cbn. intros x [s ->]. rewrite prefix_argument. exact I.
Qed.

Lemma labelled_during_call_column text :
  (forall s, text <> "Argument " +:+ s) ->
  labelled text (during_call_column r rv b lr p bars) =
  labelled text (during_call_column r rv b lr p []).
Proof using labels.
  intros Hne. unfold during_call_column, labelled. rewrite !filter_app.
  fold (labelled text bars). by rewrite (labelled_bars text Hne).
Qed.

Lemma labelled_traces text :
  (forall s, text <> "Argument " +:+ s) ->
  labelled text (traces r rv (VBool b) (VBool lr) p bars) =
  labelled text (traces r rv (VBool b) (VBool lr) p []).
Proof using labels.
  intros Hne. rewrite !traces_eq. unfold labelled at 1 2. rewrite !filter_app.
  fold (labelled text (during_call_column r rv b lr p bars)).
  fold (labelled text (during_call_column r rv b lr p [])).
  by rewrite (labelled_during_call_column text Hne).
Qed.

Lemma argument_segments_during_call_column :
  argument_segments (during_call_column r rv b lr p bars) = bars.
Proof using labels.
  unfold during_call_column, argument_segments. rewrite !filter_app.
  fold (argument_segments bars). rewrite argument_segments_bars.
  destruct b, lr; cbn; by rewrite app_nil_r.
Qed.

End Columns.

Ltac plot := eexists _, _; split; [by eapply run_reads|].

(** ** Frame size *)

Lemma integer_sizes_destructurable elems sizes :
  Forall2 (fun e size => own e "size" = #size) elems sizes ->
  forallb destructurable elems = true.
Proof.
  induction 1 as [|e s elems sizes He _ IH]; [reflexivity|].
  cbn [forallb]. rewrite IH. by destruct e.
Qed.

Lemma fold_integer_sizes elems sizes acc :
  Forall2 (fun e size => own e "size" = #size) elems sizes ->
  Z.abs acc + magnitude sizes <= limit ->
  reduce_from add_size #acc elems = Ok #(acc + sum_of sizes).
Proof.
  unfold magnitude, sum_of. intros Hsizes. revert acc.
  induction Hsizes as [|e s elems sizes He Hrest IH]; intros acc Hbound;
    cbn [reduce_from foldr] in *.
  - by rewrite Z.add_0_r.
  - pose proof (magnitude_nonneg sizes) as Hnonneg. unfold magnitude in Hnonneg.
    assert (destructurable e = true) as Hdestr by (by destruct e).
    rewrite (destructure_ok e "size" Hdestr), He. cbn [mbind result_bind].
    rewrite js_add_int by lia. cbn [mbind result_bind].
    rewrite IH by lia. do 3 f_equal. lia.
Qed.

Lemma sum_of_magnitude sizes : Z.abs (sum_of sizes) <= magnitude sizes.
Proof. unfold sum_of, magnitude. induction sizes as [|s rest IH]; cbn [foldr]; lia. Qed.

(** What the return value contributes, computed. *)
Lemma on_stack_value rv b onStack :
  on_stack rv b = Some onStack ->
  Z.abs onStack <= limit ->
  num_add (Int 0) (num_mul rv (Int (if b then 1 else 0))) = Int onStack.
Proof.
  assert (8 <= limit) as Hlimit by (unfold limit; lia).
  unfold on_stack. destruct b.
  - destruct rv as [z| |f]; try discriminate. intros [= ->] Hbound.
    rewrite num_mul_exact, num_add_exact by lia. f_equal. lia.
  - destruct (finite rv) eqn:Hfinite; try discriminate. intros [= <-] _.
    rewrite (num_mul_0_r rv Hfinite). by rewrite num_add_exact by lia.
Qed.

Lemma frame_size_integer rv b elems sizes lr p onStack :
  Forall2 (fun e size => own e "size" = #size) elems sizes ->
  on_stack rv b = Some onStack ->
  Z.abs onStack + magnitude sizes + 8 + Z.abs p <= limit ->
  frame_size_is rv b elems lr (Int p)
    #(onStack + sum_of sizes + (if lr then 4 else 0) + 4 + p).
Proof.
  intros Hsizes HonStack Hbound.
  pose proof (magnitude_nonneg sizes) as Hnonneg.
  pose proof (sum_of_magnitude sizes) as Hsum.
  unfold frame_size_is. rewrite callStackFrameSize_array.
  rewrite (fold_integer_sizes _ _ 0 Hsizes) by lia. cbn [mbind result_bind].
  rewrite (on_stack_value rv b onStack HonStack) by lia.
  rewrite js_add_int by lia. cbn [mbind result_bind].
  assert ((if lr then #4 else #0) = #(if lr then 4 else 0)) as -> by by destruct lr.
  rewrite js_add_int by (destruct lr; lia). cbn [mbind result_bind].
  rewrite js_add_int by (destruct lr; lia). cbn [mbind result_bind].
  rewrite js_add_int by (destruct lr; lia). reflexivity.
Qed.

(** C1, as amended.  Take an options object that the type check
    accepts, whose [callArgs] is an array of objects each with an
    integer [size] and a name that prints, whose [padding] is an
    integer, and whose [returnValueSize] is an integer when the return
    value is on the call stack and any finite number when it is not; let
    the sizes be small enough for their sums to be exact (the absolute
    values of the contributions, and 8 for the registers, add up to at
    most 2^53).  Then the invocation completes and the frame size it
    reports is
    [(returnValueOnCallStack ? returnValueSize : 0) + sum of the sizes +
     (linkRegister ? 4 : 0) + 4 + padding]. *)
Theorem frame_size_formula r w options rv b elems sizes lr p onStack :
  accepted (argumentTypeNames r) (heap w options) ->
  reads (heap w options) rv b elems lr (Int p) ->
  Forall2 (fun e size => own e "size" = #size) elems sizes ->
  named elems = true ->
  on_stack rv b = Some onStack ->
  Z.abs onStack + magnitude sizes + 8 + Z.abs p <= limit ->
  exists data lay,
    createCallStackChart r options w
    = (after w (calls r (property (heap w options) "id") data lay), Ok tt) /\
    layout_callStackFrameSize lay
    = #(onStack + sum_of sizes + (if lr then 4 else 0) + 4 + p).
Proof.
  intros Hok Hreads Hsizes Hnames HonStack Hbound.
  pose proof (frame_size_integer rv b elems sizes lr p onStack Hsizes HonStack Hbound)
    as Hsize.
  rewrite (run_reads r options w rv b elems lr (Int p) _ Hok Hreads Hsize Hnames).
  eexists _, _. split; [reflexivity|]. by destruct r.
Qed.

(** The example of the specification: 0 + 4 + 4 + 4 + 4 = 16. *)
Lemma frame_size_formula_example :
  exists data lay,
    createCallStackChart Rev_ById 0%nat (holding (to_object example))
    = (after (holding (to_object example))
         (calls Rev_ById (VStr "chart") data lay), Ok tt) /\
    layout_callStackFrameSize lay = #16.
Proof.
  apply (frame_size_formula Rev_ById (holding (to_object example)) 0%nat
           (Int 4) false (entry <$> opt_callArgs example) [4] true 4 0).
  - repeat constructor.
  - repeat split; reflexivity.
  - repeat constructor.
  - reflexivity.
  - reflexivity.
  - vm_compute. discriminate.
Defined.

(** C1, as stated, fails on options the type check accepts.  With
    [callArgs: null] no frame size is computed at all: the [reduce] call
    raises a [TypeError].  With [returnValueSize: NaN], or [Infinity],
    and the return value in registers the frame size reported for the
    example is [NaN], not 16.  With the argument's size given as the
    string ["4"] it is the string ["004444"], not 16.  With an argument
    of 2^53 bytes it is 2^53 + 12, the odd 2^53 + 13 having no double of
    its own, the example's padding being 5. *)
Lemma frame_size_formula_fails :
  (accepted ById.argumentTypeNames (<["callArgs" := VNull]> (to_object example)) /\
   ById.createCallStackChart 0%nat (holding (<["callArgs" := VNull]> (to_object example)))
   = (holding (<["callArgs" := VNull]> (to_object example)), Throw TypeError)) /\
  (accepted ById.argumentTypeNames (<["returnValueSize" := VNum NaN]> (to_object example)) /\
   opt_returnValueOnCallStack example = false /\
   plotted_frame_size
     (effects (ById.createCallStackChart 0%nat
                 (holding (<["returnValueSize" := VNum NaN]> (to_object example)))).1)
   = Some (VNum NaN)) /\
  (accepted ById.argumentTypeNames
     (<["returnValueSize" := VNum (Dbl infinity)]> (to_object example)) /\
   plotted_frame_size
     (effects (ById.createCallStackChart 0%nat
                 (holding (<["returnValueSize" := VNum (Dbl infinity)]>
                             (to_object example)))).1)
   = Some (VNum NaN)) /\
  (accepted ById.argumentTypeNames
     (<["callArgs" := VArr [VObj (<["name" := VStr "x"]> (<["size" := VStr "4"]>
                                   (<["color" := VStr "red"]> ∅)))]]> (to_object example)) /\
   plotted_frame_size
     (effects (ById.createCallStackChart 0%nat
                 (holding (<["callArgs" := VArr [VObj (<["name" := VStr "x"]>
                              (<["size" := VStr "4"]> (<["color" := VStr "red"]> ∅)))]]>
                             (to_object example)))).1)
   = Some (VStr "004444")) /\
  (frame_size_of Rev_ById
     (set_padding 5
        (set_callArgs [ {| arg_name := "x"; arg_size := limit; arg_color := "red" |} ]
           example))
   = Some (VNum (Dbl 9007199254741004)) /\
   0 + limit + 4 + 4 + 5 = 9007199254741005).
Proof.
  split; [|split; [|split; [|split]]]; repeat split; try (repeat constructor);
    vm_compute; reflexivity.
Qed.

(** ** Validation *)

(** C2.  Whenever some row of the type table does not hold of the options
    object, [createCallStackChart] raises the error whose message names
    the first such row, in table order.  The error comes out of the type
    check itself, the first statement of the function, and the world is
    returned as it was: nothing has been plotted or appended. *)
Theorem type_mismatch_raises r w options :
  ¬ accepted (argumentTypeNames r) (heap w options) ->
  exists i row,
    list_find (fun row => ¬ has_type (heap w options) row) (argumentTypeNames r)
    = Some (i, row) /\
    check_argument_types (argumentTypeNames r) options w = (w, Throw (expected row)) /\
    createCallStackChart r options w = (w, Throw (expected row)).
Proof.
  intros Hno.
  destruct (first_mismatch _ _ Hno) as (pre & row & post & Htable & Hpre & Hrow).
  exists (length pre), row. split; [|split].
  - apply list_find_Some. rewrite Htable. split; [|split].
    + by apply list_lookup_middle.
    + exact Hrow.
    + intros j y Hj Hlt Hy. rewrite lookup_app_l in Hj by exact Hlt.
      rewrite Forall_lookup in Hpre. exact (Hy (Hpre _ _ Hj)).
  - rewrite Htable. by apply check_throws.
  - by apply (run_rejected r options w pre row post).
Qed.

(** A string where [linkRegister] should be a boolean: the error names
    [linkRegister]. *)
Lemma type_mismatch_linkRegister :
  createCallStackChart Rev_ById 0%nat
    (holding (<["linkRegister" := VStr "yes"]> (to_object example)))
  = (holding (<["linkRegister" := VStr "yes"]> (to_object example)),
     Throw (Error "Expected linkRegister to be of type boolean")).
Proof.
  destruct (type_mismatch_raises Rev_ById
              (holding (<["linkRegister" := VStr "yes"]> (to_object example))) 0%nat)
    as (i & row & Hfind & _ & Hrun).
  - intros Hok.
    assert (("linkRegister", "boolean") ∈ argumentTypeNames Rev_ById) as Hin
      by (cbn; set_solver).
    pose proof (accepted_row _ _ _ _ Hok Hin) as Htype. vm_compute in Htype. discriminate.
  - vm_compute in Hfind. injection Hfind as <- <-. exact Hrun.
Defined.

(** Validation looks at nothing but the fields of its table. *)
Lemma has_type_agree o o' (row : string * string) :
  o !! row.1 = o' !! row.1 -> has_type o row -> has_type o' row.
Proof. unfold has_type, property. by intros ->. Qed.

Lemma check_agree table options w options' w' :
  (forall arg, arg ∈ table.*1 -> heap w options !! arg = heap w' options' !! arg) ->
  (check_argument_types table options w).2 = (check_argument_types table options' w').2.
Proof.
  intros Hagree.
  destruct (decide (accepted table (heap w options))) as [Hok|Hno].
  - rewrite (check_passes _ _ _ Hok), check_passes; [reflexivity|].
    unfold accepted in *. rewrite Forall_forall in *. intros row Hin.
    apply (has_type_agree (heap w options)); [|by apply Hok].
    apply Hagree. apply list_elem_of_fmap. by exists row.
  - destruct (first_mismatch _ _ Hno) as (pre & row & post & -> & Hpre & Hrow).
    rewrite (check_throws _ _ _ _ _ Hpre Hrow), check_throws; [reflexivity| |].
    + rewrite Forall_forall in *. intros x Hin.
      apply (has_type_agree (heap w options)); [|by apply Hpre].
      apply Hagree. apply list_elem_of_fmap. exists x. split; [done|].
      apply elem_of_app. by left.
    + intros Hrow'. apply Hrow.
      apply (has_type_agree (heap w' options')); [|exact Hrow'].
      symmetry. apply Hagree. apply list_elem_of_fmap. exists row. split; [done|].
      apply elem_of_app. right. by left.
Qed.

(** C9.  The type check visits the fields in the fixed order [id],
    [title], [returnValueSize], [returnValueOnCallStack], [callArgs],
    [linkRegister], [padding], [yMax] (the second revision has no [id]):
    the error names the first row that fails, whatever the rows after it
    look like.  Two options objects that agree on the fields of the table
    get the same verdict, so no other field is ever examined or can cause
    a validation error. *)
Theorem validation_order r w options :
  (argumentTypeNames Rev_ById).*1
  = ["id"; "title"; "returnValueSize"; "returnValueOnCallStack"; "callArgs";
     "linkRegister"; "padding"; "yMax"] /\
  (argumentTypeNames Rev_Fixed).*1
  = ["title"; "returnValueSize"; "returnValueOnCallStack"; "callArgs";
     "linkRegister"; "padding"; "yMax"] /\
  (forall pre row post,
     argumentTypeNames r = pre ++ row :: post ->
     Forall (has_type (heap w options)) pre ->
     ¬ has_type (heap w options) row ->
     createCallStackChart r options w = (w, Throw (expected row))) /\
  (forall w' options',
     (forall arg, arg ∈ (argumentTypeNames r).*1 ->
                  heap w options !! arg = heap w' options' !! arg) ->
     (check_argument_types (argumentTypeNames r) options w).2
     = (check_argument_types (argumentTypeNames r) options' w').2).
Proof.
  split; [reflexivity|]. split; [reflexivity|]. split.
  - intros pre row post. apply run_rejected.
  - intros w' options'. apply check_agree.
Qed.

(** With [title] and [padding] both mistyped the error names [title];
    and the stray field [color] does not change the verdict on the
    example. *)
Lemma validation_order_title_first :
  createCallStackChart Rev_ById 0%nat
    (holding (<["title" := #7]> (<["padding" := VStr "4"]> (to_object example))))
  = (holding (<["title" := #7]> (<["padding" := VStr "4"]> (to_object example))),
     Throw (Error "Expected title to be of type string")) /\
  (check_argument_types (argumentTypeNames Rev_ById) 0%nat
     (holding (<["color" := VStr "blue"]> (to_object example)))).2
  = (check_argument_types (argumentTypeNames Rev_ById) 0%nat
       (holding (to_object example))).2.
Proof.
  split.
  - apply (proj1 (proj2 (proj2 (validation_order Rev_ById _ 0%nat)))
             [("id", "string")] ("title", "string")
             [("returnValueSize", "number"); ("returnValueOnCallStack", "boolean");
              ("callArgs", "object"); ("linkRegister", "boolean");
              ("padding", "number"); ("yMax", "number")]).
    + reflexivity.
    + repeat constructor.
    + unfold has_type. vm_compute. discriminate.
  - apply (proj2 (proj2 (proj2 (validation_order Rev_ById
             (holding (<["color" := VStr "blue"]> (to_object example))) 0%nat)))
             (holding (to_object example)) 0%nat).
    intros arg Harg. cbn [heap holding].
    apply lookup_insert_ne. intros <-. vm_compute in Harg.
    repeat (apply elem_of_cons in Harg as [Harg|Harg]; [discriminate|]).
    by apply elem_of_nil in Harg.
Defined.

(** ** Failure model *)

(** Sizes that are primitives other than strings add up to a number. *)
Lemma addable_number v : addable v = true -> exists n, to_number v = Some n /\
  forall acc, js_add (VNum acc) v = Ok (VNum (num_add acc n)).
Proof. destruct v; try discriminate; intros _; eexists; split; reflexivity. Qed.






(** ** The During Call column *)

(** The example's options are valid: accepted, with a frame size that
    evaluates (to 16) and names that print. *)
Lemma example_valid :
  accepted (argumentTypeNames Rev_ById) (heap (holding (to_object example)) 0%nat) /\
  reads (heap (holding (to_object example)) 0%nat)
    (Int 4) false (entry <$> opt_callArgs example) true (Int 4) /\
  frame_size_is (Int 4) false (entry <$> opt_callArgs example) true (Int 4) #16 /\
  named (entry <$> opt_callArgs example) = true.
Proof. split; [repeat constructor|]. repeat split; reflexivity. Qed.

(** C4.  Valid options are those the type check accepts and whose
    [callArgs] is an array of entries whose sizes add up and whose names
    print (the well-typed options of the typedef are among them).  For
    every such options object the invocation completes and the During
    Call column reads, bottom to top: the return value (light grey and
    plain when it is on the call stack, light blue and hatched when it
    is in registers); the link register, only if [linkRegister]; the
    frame pointer; one bar per [callArgs] entry, in input order; the
    second return-value bar, only if [returnValueOnCallStack]; the
    padding.  (The second revision draws no pattern.) *)
Theorem during_call_order r w options rv b elems lr p frameSize :
  accepted (argumentTypeNames r) (heap w options) ->
  reads (heap w options) rv b elems lr p ->
  frame_size_is rv b elems lr p frameSize ->
  named elems = true ->
  exists data lay,
    createCallStackChart r options w
    = (after w (calls r (property (heap w options) "id") data lay), Ok tt) /\
    column "During Call" data =
      [ {| bar_x := "During Call"; bar_y := VNum rv;
           marker_color := VStr (if b then "lightgrey" else "lightblue");
           pattern_shape := pattern r (if b then "" else "/");
           bar_text := "Return Value" |} ]
      ++ (if lr
          then [ {| bar_x := "During Call"; bar_y := #4; marker_color := VStr "lightgreen";
                    pattern_shape := pattern r ""; bar_text := "Link Register" |} ]
          else [])
      ++ [ {| bar_x := "During Call"; bar_y := #4; marker_color := VStr "lightgreen";
              pattern_shape := pattern r ""; bar_text := "Frame Pointer" |} ]
      ++ imap (fun i e =>
                 {| bar_x := "During Call"; bar_y := own e "size";
                    marker_color := own e "color"; pattern_shape := pattern r "";
                    bar_text := "Argument " +:+ pretty i +:+ " (" +:+ label_of e +:+ ")" |})
           elems
      ++ (if b
          then [ {| bar_x := "During Call"; bar_y := VNum rv; marker_color := VStr "lightblue";
                    pattern_shape := pattern r "/"; bar_text := "Return Value" |} ]
          else [])
      ++ [ {| bar_x := "During Call"; bar_y := VNum p; marker_color := VStr "white";
              pattern_shape := pattern r ""; bar_text := "Padding" |} ].
Proof.
  intros Hok Hreads Hsize Hnames. plot. apply column_traces, bars_during.
Qed.

(** The example of the specification: return value (register style),
    link register, frame pointer, argument [x], padding. *)
Lemma during_call_order_example :
  exists data lay,
    createCallStackChart Rev_ById 0%nat (holding (to_object example))
    = (after (holding (to_object example)) (calls Rev_ById (VStr "chart") data lay), Ok tt) /\
    column "During Call" data =
      [ {| bar_x := "During Call"; bar_y := #4; marker_color := VStr "lightblue";
           pattern_shape := Some "/"; bar_text := "Return Value" |};
        {| bar_x := "During Call"; bar_y := #4; marker_color := VStr "lightgreen";
           pattern_shape := Some ""; bar_text := "Link Register" |};
        {| bar_x := "During Call"; bar_y := #4; marker_color := VStr "lightgreen";
           pattern_shape := Some ""; bar_text := "Frame Pointer" |};
        {| bar_x := "During Call"; bar_y := #4; marker_color := VStr "red";
           pattern_shape := Some ""; bar_text := "Argument 0 (x)" |};
        {| bar_x := "During Call"; bar_y := #4; marker_color := VStr "white";
           pattern_shape := Some ""; bar_text := "Padding" |} ].
Proof.
  destruct example_valid as (Hok & Hreads & Hsize & Hnames).
  exact (during_call_order Rev_ById (holding (to_object example)) 0%nat
           (Int 4) false (entry <$> opt_callArgs example) true (Int 4) #16
           Hok Hreads Hsize Hnames).
Defined.

(** C5.  For every valid options object the bars of the During Call
    column labelled "Return Value" are: with [returnValueOnCallStack]
    false, exactly one, in the register style (light blue, hatched), and
    no second one; with it true, exactly two, the first in the stack
    style (light grey, plain) at the bottom and a second one (light
    blue, hatched) above the arguments. *)
Theorem return_value_bars r w options rv b elems lr p frameSize :
  accepted (argumentTypeNames r) (heap w options) ->
  reads (heap w options) rv b elems lr p ->
  frame_size_is rv b elems lr p frameSize ->
  named elems = true ->
  exists data lay,
    createCallStackChart r options w
    = (after w (calls r (property (heap w options) "id") data lay), Ok tt) /\
    labelled "Return Value" (column "During Call" data) =
      if b
      then [ {| bar_x := "During Call"; bar_y := VNum rv; marker_color := VStr "lightgrey";
                pattern_shape := pattern r ""; bar_text := "Return Value" |};
             {| bar_x := "During Call"; bar_y := VNum rv; marker_color := VStr "lightblue";
                pattern_shape := pattern r "/"; bar_text := "Return Value" |} ]
      else [ {| bar_x := "During Call"; bar_y := VNum rv; marker_color := VStr "lightblue";
                pattern_shape := pattern r "/"; bar_text := "Return Value" |} ].
Proof.
  intros Hok Hreads Hsize Hnames. plot.
  rewrite (column_traces _ _ _ _ _ _ (bars_during r elems)).
  rewrite (labelled_during_call_column _ _ _ _ _ _ (bars_labels r elems)) by discriminate.
  destruct b, lr; reflexivity.
Qed.

Lemma return_value_bars_example :
  exists data lay,
    createCallStackChart Rev_ById 0%nat (holding (to_object example))
    = (after (holding (to_object example)) (calls Rev_ById (VStr "chart") data lay), Ok tt) /\
    labelled "Return Value" (column "During Call" data) =
      [ {| bar_x := "During Call"; bar_y := #4; marker_color := VStr "lightblue";
           pattern_shape := Some "/"; bar_text := "Return Value" |} ].
Proof.
  destruct example_valid as (Hok & Hreads & Hsize & Hnames).
  exact (return_value_bars Rev_ById (holding (to_object example)) 0%nat
           (Int 4) false (entry <$> opt_callArgs example) true (Int 4) #16
           Hok Hreads Hsize Hnames).
Defined.

(** C6.  For every valid options object the bars labelled "Link
    Register", in any column of the plotted data, are: none when
    [linkRegister] is false; exactly one, of size 4, when it is true. *)
Theorem link_register_bar r w options rv b elems lr p frameSize :
  accepted (argumentTypeNames r) (heap w options) ->
  reads (heap w options) rv b elems lr p ->
  frame_size_is rv b elems lr p frameSize ->
  named elems = true ->
  exists data lay,
    createCallStackChart r options w
    = (after w (calls r (property (heap w options) "id") data lay), Ok tt) /\
    labelled "Link Register" data =
      (if lr
       then [ {| bar_x := "During Call"; bar_y := #4; marker_color := VStr "lightgreen";
                 pattern_shape := pattern r ""; bar_text := "Link Register" |} ]
       else []) /\
    Forall (fun x => bar_y x = #4) (labelled "Link Register" data).
Proof.
  intros Hok Hreads Hsize Hnames. plot.
  rewrite (labelled_traces _ _ _ _ _ _ (bars_labels r elems)) by discriminate.
  assert (labelled "Link Register" (traces r (VNum rv) (VBool b) (VBool lr) (VNum p) [])
          = if lr
            then [ {| bar_x := "During Call"; bar_y := #4; marker_color := VStr "lightgreen";
                      pattern_shape := pattern r ""; bar_text := "Link Register" |} ]
            else []) as -> by (destruct r, b, lr; reflexivity).
  split; [reflexivity|]. destruct lr; by repeat constructor.
Qed.

Lemma link_register_bar_example :
  exists data lay,
    createCallStackChart Rev_ById 0%nat (holding (to_object example))
    = (after (holding (to_object example)) (calls Rev_ById (VStr "chart") data lay), Ok tt) /\
    labelled "Link Register" data
    = [ {| bar_x := "During Call"; bar_y := #4; marker_color := VStr "lightgreen";
           pattern_shape := Some ""; bar_text := "Link Register" |} ] /\
    Forall (fun x => bar_y x = #4) (labelled "Link Register" data).
Proof.
  destruct example_valid as (Hok & Hreads & Hsize & Hnames).
  exact (link_register_bar Rev_ById (holding (to_object example)) 0%nat
           (Int 4) false (entry <$> opt_callArgs example) true (Int 4) #16
           Hok Hreads Hsize Hnames).
Defined.

Lemma named_lookup elems (i : nat) e :
  named elems = true -> elems !! i = Some e ->
  exists name, to_str (own e "name") = Ok name /\ label_of e = name.
Proof.
  unfold named. revert i. induction elems as [|x rest IH]; intros i Hnames Hi;
    [discriminate|].
  cbn in Hnames. apply andb_prop in Hnames as [Hname Hnames].
  destruct i as [|i]; [|by apply (IH i)]. injection Hi as ->.
  unfold printable in Hname. unfold label_of.
  destruct (to_str (own e "name")) as [name| |]; try discriminate. by exists name.
Qed.

(** C7.  For every valid options object the argument bars of the During
    Call column are as many as [callArgs] has entries and come in the
    same order; the bar at position [i] takes its size and its colour
    unchanged from entry [i], and is labelled with [i] and the entry's
    name. *)
Theorem argument_bars_verbatim r w options rv b elems lr p frameSize :
  accepted (argumentTypeNames r) (heap w options) ->
  reads (heap w options) rv b elems lr p ->
  frame_size_is rv b elems lr p frameSize ->
  named elems = true ->
  exists data lay,
    createCallStackChart r options w
    = (after w (calls r (property (heap w options) "id") data lay), Ok tt) /\
    length (argument_segments (column "During Call" data)) = length elems /\
    forall (i : nat) e,
      elems !! i = Some e ->
      exists seg name,
        argument_segments (column "During Call" data) !! i = Some seg /\
        bar_y seg = own e "size" /\
        marker_color seg = own e "color" /\
        to_str (own e "name") = Ok name /\
        bar_text seg = "Argument " +:+ pretty i +:+ " (" +:+ name +:+ ")".
Proof.
  intros Hok Hreads Hsize Hnames. plot.
  rewrite (column_traces _ _ _ _ _ _ (bars_during r elems)).
  rewrite (argument_segments_during_call_column _ _ _ _ _ _ (bars_labels r elems)).
  split; [apply length_imap|].
  intros i e Hi. destruct (named_lookup elems i e Hnames Hi) as (name & Hname & Hlabel).
  eexists _, name. rewrite list_lookup_imap, Hi. split; [reflexivity|].
  cbn. by rewrite Hlabel.
Qed.

(** On the example: one argument bar, 4 bytes, red, "Argument 0 (x)". *)
Lemma argument_bars_verbatim_example :
  exists data lay,
    createCallStackChart Rev_ById 0%nat (holding (to_object example))
    = (after (holding (to_object example)) (calls Rev_ById (VStr "chart") data lay), Ok tt) /\
    length (argument_segments (column "During Call" data)) = 1%nat /\
    forall (i : nat) e,
      (entry <$> opt_callArgs example) !! i = Some e ->
      exists seg name,
        argument_segments (column "During Call" data) !! i = Some seg /\
        bar_y seg = own e "size" /\
        marker_color seg = own e "color" /\
        to_str (own e "name") = Ok name /\
        bar_text seg = "Argument " +:+ pretty i +:+ " (" +:+ name +:+ ")".
Proof.
  destruct example_valid as (Hok & Hreads & Hsize & Hnames).
  exact (argument_bars_verbatim Rev_ById (holding (to_object example)) 0%nat
           (Int 4) false (entry <$> opt_callArgs example) true (Int 4) #16
           Hok Hreads Hsize Hnames).
Defined.

(** The columns on either side.  For every valid options object the
    Before Call column holds one bar, the return variable in light grey,
    and the After Call column one bar, the return variable in light
    blue; both are [returnValueSize] high and without pattern. *)
Theorem outer_columns r w options rv b elems lr p frameSize :
  accepted (argumentTypeNames r) (heap w options) ->
  reads (heap w options) rv b elems lr p ->
  frame_size_is rv b elems lr p frameSize ->
  named elems = true ->
  exists data lay,
    createCallStackChart r options w
    = (after w (calls r (property (heap w options) "id") data lay), Ok tt) /\
    column "Before Call" data
    = [ {| bar_x := "Before Call"; bar_y := VNum rv; marker_color := VStr "lightgrey";
           pattern_shape := pattern r ""; bar_text := "Return Value" |} ] /\
    column "After Call" data
    = [ {| bar_x := "After Call"; bar_y := VNum rv; marker_color := VStr "lightblue";
           pattern_shape := pattern r ""; bar_text := "Return Value" |} ].
Proof.
  intros Hok Hreads Hsize Hnames. plot. apply outer_columns_traces, bars_during.
Qed.

Lemma outer_columns_example :
  exists data lay,
    createCallStackChart Rev_ById 0%nat (holding (to_object example))
    = (after (holding (to_object example)) (calls Rev_ById (VStr "chart") data lay), Ok tt) /\
    column "Before Call" data
    = [ {| bar_x := "Before Call"; bar_y := #4; marker_color := VStr "lightgrey";
           pattern_shape := Some ""; bar_text := "Return Value" |} ] /\
    column "After Call" data
    = [ {| bar_x := "After Call"; bar_y := #4; marker_color := VStr "lightblue";
           pattern_shape := Some ""; bar_text := "Return Value" |} ].
Proof.
  destruct example_valid as (Hok & Hreads & Hsize & Hnames).
  exact (outer_columns Rev_ById (holding (to_object example)) 0%nat
           (Int 4) false (entry <$> opt_callArgs example) true (Int 4) #16
           Hok Hreads Hsize Hnames).
Defined.

(** ** Frame size, field by field *)

Lemma frame_size_of_typed r c :
  exact c ->
  frame_size_of r c
  = Some #(frame_bytes (opt_returnValueSize c) (opt_returnValueOnCallStack c)
             (opt_callArgs c) (opt_linkRegister c) (opt_padding c)).
Proof.
  intros Hexact. unfold frame_size_of.
  rewrite (run_typed r c 0%nat (holding (to_object c))) by done.
  by destruct r.
Qed.





(** ** The options object is only read *)

Lemma typeof_string v : typeof v = "string" -> exists s, v = VStr s.
Proof. destruct v; try discriminate; eauto. Qed.

Lemma js_add_primitive a b v : js_add a b = Ok v -> primitive v.
Proof.
  unfold js_add.
  destruct (to_primitive a) as [p| |]; try discriminate.
  destruct (to_primitive b) as [q| |]; try discriminate. cbn [mbind result_bind].
  destruct p, q; cbv beta iota;
    repeat match goal with
           | |- (?r ≫= _) = Ok _ -> _ =>
               destruct r as [?| |]; cbn [mbind result_bind]; try discriminate
           end;
    by intros [= <-].
Qed.

Lemma frame_size_primitive rv b elems lr p frameSize :
  frame_size_is rv b elems lr p frameSize -> primitive frameSize.
Proof.
  unfold frame_size_is. rewrite callStackFrameSize_array.
  destruct (reduce_from add_size #0 elems) as [args| |]; try discriminate.
  cbn [mbind result_bind].
  destruct (js_add _ args) as [sum1| |]; try discriminate. cbn [mbind result_bind].
  destruct (js_add sum1 _) as [sum2| |]; try discriminate. cbn [mbind result_bind].
  destruct (js_add sum2 _) as [sum3| |]; try discriminate. cbn [mbind result_bind].
  apply js_add_primitive.
Qed.

Lemma accepted_primitive r o :
  accepted (argumentTypeNames r) o ->
  primitive (property o "title") /\ primitive (property o "yMax") /\
  (r = Rev_ById -> primitive (property o "id")).
Proof.
  intros Hok.
  assert (("title", "string") ∈ argumentTypeNames r) as Htitle by (destruct r; cbn; repeat constructor).
  assert (("yMax", "number") ∈ argumentTypeNames r) as HyMax by (destruct r; cbn; repeat constructor).
  destruct (typeof_string _ (accepted_row _ _ _ _ Hok Htitle)) as [title ->].
  destruct (typeof_number _ (accepted_row _ _ _ _ Hok HyMax)) as [yMax ->].
  split; [done|]. split; [done|]. intros ->.
  assert (("id", "string") ∈ argumentTypeNames Rev_ById) as Hid by (cbn; repeat constructor).
  by destruct (typeof_string _ (accepted_row _ _ _ _ Hok Hid)) as [id ->].
Qed.

Lemma traces_share_nothing r rv b lr p elems :
  Forall (fun e => primitive (own e "size") /\ primitive (own e "color")) elems ->
  Forall (fun x => primitive (bar_y x) /\ primitive (marker_color x))
    (traces r (VNum rv) (VBool b) (VBool lr) (VNum p) (imap (argument_bar r) elems)).
Proof.
  intros Helems. rewrite traces_eq. unfold during_call_column.
  assert (Forall (fun x => primitive (bar_y x) /\ primitive (marker_color x))
            (imap (argument_bar r) elems)) as Hbars.
  { apply Forall_lookup. intros i x. rewrite list_lookup_imap.
    destruct (elems !! i) as [e|] eqn:Hi; [|discriminate]. intros [= <-].
    exact (proj1 (Forall_lookup _ _) Helems i e Hi). }
  repeat (apply Forall_app; split); try exact Hbars;
    destruct b, lr; by repeat constructor.
Qed.

(** C10, as amended.  The function never writes to its options: an
    invocation that raises leaves the world as it was, and one that
    completes has only made its calls.  What it hands on it builds
    itself, around the values of the options: when the entries' sizes
    and colours are primitives, as the typedef has them, every value it
    places in container, bars and layout is a primitive, so no object is
    shared between the callees and the options, and whatever the callees
    do with what they are handed, every reference denotes afterwards the
    object it denoted before, [callArgs] and its entries included. *)
Theorem options_untouched r options w :
  (forall w' e, createCallStackChart r options w = (w', Throw e) -> w' = w) /\
  (forall w', createCallStackChart r options w = (w', Ok tt) ->
     exists es, w' = after w es) /\
  forall rv b elems lr p frameSize,
    accepted (argumentTypeNames r) (heap w options) ->
    reads (heap w options) rv b elems lr p ->
    frame_size_is rv b elems lr p frameSize ->
    named elems = true ->
    Forall (fun e => primitive (own e "size") /\ primitive (own e "color")) elems ->
    exists es,
      createCallStackChart r options w = (after w es, Ok tt) /\
      Forall shares_nothing es /\
      heap (after w es) = heap w.
Proof.
  split; [|split].
  - intros w' e Hrun.
    destruct (run_outcome r options w) as [[e' Heq]|[(data & lay & Heq)|Heq]];
      rewrite Heq in Hrun; by injection Hrun as <-.
  - intros w' Hrun.
    destruct (run_outcome r options w) as [[e' Heq]|[(data & lay & Heq)|Heq]];
      rewrite Heq in Hrun; try discriminate. injection Hrun as <-. by eexists.
  - intros rv b elems lr p frameSize Hok Hreads Hsize Hnames Helems.
    pose proof (traces_share_nothing r rv b lr p elems Helems) as Hdata.
    pose proof (frame_size_primitive _ _ _ _ _ _ Hsize) as HframeSize.
    destruct (accepted_primitive r _ Hok) as (Htitle & HyMax & Hid).
    assert (Forall shares_nothing
              (calls r (property (heap w options) "id")
                 (traces r (VNum rv) (VBool b) (VBool lr) (VNum p)
                    (imap (argument_bar r) elems))
                 (make_layout r (property (heap w options) "title")
                    (property (heap w options) "yMax") (VNum rv) frameSize))) as Hshares.
    { destruct r; cbn [calls]; repeat (apply Forall_cons_2); try apply Forall_nil_2;
        cbn; repeat split; auto. }
    eexists. split; [by eapply run_reads|]. split; [exact Hshares|].
    by apply after_heap.
Qed.

(** On the example both calls are made, nothing is shared and the heap
    is as before. *)
Lemma options_untouched_example :
  exists es,
    createCallStackChart Rev_ById 0%nat (holding (to_object example))
    = (after (holding (to_object example)) es, Ok tt) /\
    Forall shares_nothing es /\
    heap (after (holding (to_object example)) es) = heap (holding (to_object example)).
Proof.
  destruct example_valid as (Hok & Hreads & Hsize & Hnames).
  apply (proj2 (proj2 (options_untouched Rev_ById 0%nat (holding (to_object example))))
           (Int 4) false (entry <$> opt_callArgs example) true (Int 4) #16
           Hok Hreads Hsize Hnames).
  by repeat constructor.
Defined.

(** C10, as stated, fails in its last part: given an array as an
    argument's colour, which the type check never looks at, the bar
    drawn for the argument carries that very array as its marker colour.
    Plotly receives an object of the options, not a fresh one, and with
    a Plotly that writes to what it is handed the options are not
    afterwards what they were. *)
Lemma options_untouched_fails :
  accepted ById.argumentTypeNames two_tone /\
  (exists data lay,
    (ById.createCallStackChart 0%nat (holding two_tone)).2 = Ok tt /\
    effects (ById.createCallStackChart 0%nat (holding two_tone)).1
    = [Plotly_newPlot (VStr "chart") data lay; appendChild (VStr "chart") ById.sourceLink] /\
    Exists (fun x => marker_color x = VArr [VStr "red"; VStr "blue"]) data /\
    ¬ shares_nothing (Plotly_newPlot (VStr "chart") data lay)) /\
  heap (ById.createCallStackChart 0%nat
          {| heap := fun _ => two_tone; effects := [];
             collaborator := fun _ _ _ => ∅ |}).1 0%nat
  <> two_tone.
Proof.
  split; [repeat constructor|]. split.
  - eexists _, _. split; [reflexivity|]. split; [vm_compute; reflexivity|]. split.
    + do 4 apply Exists_cons_tl. by apply Exists_cons_hd.
    + intros (_ & Hdata & _). do 4 apply Forall_cons_1 in Hdata as [_ Hdata].
      apply Forall_cons_1 in Hdata as [[_ Hcolor] _]. exact Hcolor.
  - vm_compute. discriminate.
Qed.

(** * Further properties *)

(** ** When an invocation plots *)



(** ** Required fields *)

Lemma table_types r :
  Forall (fun row : string * string => row.2 <> "undefined" /\
                     (row.2 = "object" -> row.1 = "callArgs"))
    (argumentTypeNames r).
Proof. destruct r; repeat constructor; discriminate. Qed.

(** No field of the type table has a default and none but [callArgs]
    may be [null]: if some field of the table is missing from the
    options, is [undefined], or is [null] without being [callArgs], the
    invocation raises a validation error and makes no call.  If that
    field heads the table the error names it. *)
Theorem missing_field_rejected r w options arg type :
  (arg, type) ∈ argumentTypeNames r ->
  heap w options !! arg = None \/
  heap w options !! arg = Some VUndefined \/
  (heap w options !! arg = Some VNull /\ arg <> "callArgs") ->
  (exists row, row ∈ argumentTypeNames r /\
     createCallStackChart r options w = (w, Throw (expected row))) /\
  (forall rest, argumentTypeNames r = (arg, type) :: rest ->
     createCallStackChart r options w = (w, Throw (expected (arg, type)))).
Proof.
  intros Hin Hmissing.
  assert (¬ has_type (heap w options) (arg, type)) as Hrow.
  { pose proof (table_types r) as Htypes. rewrite Forall_forall in Htypes.
    destruct (Htypes _ Hin) as [Hundef Hobject]. cbn in Hundef, Hobject.
    unfold has_type, property. cbn [fst snd].
    destruct Hmissing as [-> | [-> | [-> Hne]]]; cbn; intros Heq; auto. }
  split.
  - assert (¬ accepted (argumentTypeNames r) (heap w options)) as Hno.
    { intros Hok. unfold accepted in Hok. rewrite Forall_forall in Hok. exact (Hrow (Hok _ Hin)). }
    destruct (first_mismatch _ _ Hno) as (pre & row & post & Htable & Hpre & Hbad).
    exists row. split.
    + rewrite Htable. apply elem_of_app. right. by left.
    + by apply (run_rejected r options w pre row post).
  - intros rest Htable. by apply (run_rejected r options w [] (arg, type) rest).
Qed.

(** The empty options object: the first revision asks for [id], the
    second for [title]. *)
Lemma missing_field_rejected_empty :
  createCallStackChart Rev_ById 0%nat (holding ∅)
  = (holding ∅, Throw (Error "Expected id to be of type string")) /\
  createCallStackChart Rev_Fixed 0%nat (holding ∅)
  = (holding ∅, Throw (Error "Expected title to be of type string")).
Proof.
  split.
  - apply (proj2 (missing_field_rejected Rev_ById (holding ∅) 0%nat "id" "string"
                    ltac:(cbn; repeat constructor) (or_introl eq_refl))
             (tail ById.argumentTypeNames)).
    reflexivity.
  - apply (proj2 (missing_field_rejected Rev_Fixed (holding ∅) 0%nat "title" "string"
                    ltac:(cbn; repeat constructor) (or_introl eq_refl))
             (tail Fixed.argumentTypeNames)).
    reflexivity.
Defined.

(** ** The shape of the data *)

(** The data come column by column, Before Call, During Call, After
    Call; there are five bars plus one per argument, one for a saved
    link register and one for a return value on the call stack. *)
Theorem data_by_column r w options rv b elems lr p frameSize :
  accepted (argumentTypeNames r) (heap w options) ->
  reads (heap w options) rv b elems lr p ->
  frame_size_is rv b elems lr p frameSize ->
  named elems = true ->
  exists data lay,
    createCallStackChart r options w
    = (after w (calls r (property (heap w options) "id") data lay), Ok tt) /\
    data = column "Before Call" data ++ column "During Call" data
           ++ column "After Call" data /\
    length data
    = (5 + length elems + (if lr then 1 else 0) + (if b then 1 else 0))%nat.
Proof.
  intros Hok Hreads Hsize Hnames. plot.
  destruct (outer_columns_traces r (VNum rv) (VNum p) b lr _ (bars_during r elems))
    as [-> ->].
  rewrite (column_traces _ _ _ _ _ _ (bars_during r elems)).
  rewrite traces_eq. split; [reflexivity|].
  unfold during_call_column. rewrite !length_app, length_imap. destruct b, lr; cbn; lia.
Qed.

Lemma data_by_column_example :
  exists data lay,
    createCallStackChart Rev_ById 0%nat (holding (to_object example))
    = (after (holding (to_object example)) (calls Rev_ById (VStr "chart") data lay), Ok tt) /\
    data = column "Before Call" data ++ column "During Call" data
           ++ column "After Call" data /\
    length data = 7%nat.
Proof.
  destruct example_valid as (Hok & Hreads & Hsize & Hnames).
  exact (data_by_column Rev_ById (holding (to_object example)) 0%nat
           (Int 4) false (entry <$> opt_callArgs example) true (Int 4) #16
           Hok Hreads Hsize Hnames).
Defined.

(** Whatever the arguments are called, and even when [padding] is 0,
    the data hold exactly one bar labelled "Frame Pointer", 4 high and
    light green, and exactly one labelled "Padding", [padding] high and
    white, both in the During Call column and without pattern. *)
Theorem frame_pointer_and_padding r w options rv b elems lr p frameSize :
  accepted (argumentTypeNames r) (heap w options) ->
  reads (heap w options) rv b elems lr p ->
  frame_size_is rv b elems lr p frameSize ->
  named elems = true ->
  exists data lay,
    createCallStackChart r options w
    = (after w (calls r (property (heap w options) "id") data lay), Ok tt) /\
    labelled "Frame Pointer" data
    = [ {| bar_x := "During Call"; bar_y := #4; marker_color := VStr "lightgreen";
           pattern_shape := pattern r ""; bar_text := "Frame Pointer" |} ] /\
    labelled "Padding" data
    = [ {| bar_x := "During Call"; bar_y := VNum p; marker_color := VStr "white";
           pattern_shape := pattern r ""; bar_text := "Padding" |} ].
Proof.
  intros Hok Hreads Hsize Hnames. plot.
  rewrite !(labelled_traces _ _ _ _ _ _ (bars_labels r elems)) by discriminate.
  destruct r, b, lr; split; reflexivity.
Qed.

(** An argument named "Padding" and no padding at all. *)
Lemma frame_pointer_and_padding_example :
  exists data lay,
    createCallStackChart Rev_ById 0%nat (holding padding_named)
    = (after (holding padding_named) (calls Rev_ById (VStr "chart") data lay), Ok tt) /\
    labelled "Frame Pointer" data
    = [ {| bar_x := "During Call"; bar_y := #4; marker_color := VStr "lightgreen";
           pattern_shape := Some ""; bar_text := "Frame Pointer" |} ] /\
    labelled "Padding" data
    = [ {| bar_x := "During Call"; bar_y := #0; marker_color := VStr "white";
           pattern_shape := Some ""; bar_text := "Padding" |} ].
Proof.
  assert (accepted (argumentTypeNames Rev_ById) (heap (holding padding_named) 0%nat))
    as Hok by repeat constructor.
  assert (reads (heap (holding padding_named) 0%nat) (Int 4) false
            [VObj (<["name" := VStr "Padding"]> (<["size" := #8]>
                     (<["color" := VStr "red"]> ∅)))] true (Int 0))
    as Hreads by (repeat split; reflexivity).
  assert (frame_size_is (Int 4) false
            [VObj (<["name" := VStr "Padding"]> (<["size" := #8]>
                     (<["color" := VStr "red"]> ∅)))] true (Int 0) #16)
    as Hsize by reflexivity.
  exact (frame_pointer_and_padding Rev_ById (holding padding_named) 0%nat
           (Int 4) false _ true (Int 0) #16 Hok Hreads Hsize eq_refl).
Defined.

(** ** Heights *)

Lemma sum_of_app xs ys : sum_of (xs ++ ys) = sum_of xs + sum_of ys.
Proof. unfold sum_of. induction xs as [|x xs IH]; cbn [app foldr]; lia. Qed.

Lemma magnitude_app xs ys : magnitude (xs ++ ys) = magnitude xs + magnitude ys.
Proof. unfold magnitude. induction xs as [|x xs IH]; cbn [app foldr]; lia. Qed.

Lemma total_size_sum args : total_size args = sum_of (arg_size <$> args).
Proof.
  unfold sum_of. induction args as [|a rest IH]; cbn [total_size fmap list_fmap foldr]; lia.
Qed.

(** Bars of integer heights, stacked. *)
Lemma reduce_integers acc heights :
  Z.abs acc + magnitude heights <= limit ->
  reduce_from js_add #acc ((fun z => #z) <$> heights) = Ok #(acc + sum_of heights).
Proof.
  unfold magnitude, sum_of. revert acc.
  induction heights as [|z rest IH]; intros acc Hbound;
    cbn [reduce_from fmap list_fmap foldr] in *.
  - by rewrite Z.add_0_r.
  - pose proof (magnitude_nonneg rest) as Hnonneg. unfold magnitude in Hnonneg.
    rewrite js_add_int by lia. cbn [mbind result_bind].
    rewrite IH by lia. do 3 f_equal. lia.
Qed.

Lemma bar_y_argument_bars r args :
  bar_y <$> argument_bars r args = (fun z => #z) <$> (arg_size <$> args).
Proof.
  unfold argument_bars. apply list_eq. intros i.
  rewrite !list_lookup_fmap, list_lookup_imap. by destruct (args !! i).
Qed.

(** The bars of the three columns of well-typed options, by height. *)
Lemma chart_data_columns r c :
  bar_y <$> column "Before Call" (chart_data r c)
  = (fun z => #z) <$> [opt_returnValueSize c] /\
  bar_y <$> column "After Call" (chart_data r c)
  = (fun z => #z) <$> [opt_returnValueSize c] /\
  bar_y <$> column "During Call" (chart_data r c)
  = (fun z => #z) <$>
      ([opt_returnValueSize c]
       ++ (if opt_linkRegister c then [4] else [])
       ++ [4]
       ++ (arg_size <$> opt_callArgs c)
       ++ (if opt_returnValueOnCallStack c then [opt_returnValueSize c] else [])
       ++ [opt_padding c]).
Proof.
  assert (Forall (fun x => bar_x x = "During Call") (argument_bars r (opt_callArgs c)))
    as Hduring.
  { apply Forall_lookup. intros i x. unfold argument_bars. rewrite list_lookup_imap.
    destruct (opt_callArgs c !! i); [|discriminate]. by intros [= <-]. }
  unfold chart_data.
  destruct (outer_columns_traces r #(opt_returnValueSize c) #(opt_padding c)
              (opt_returnValueOnCallStack c) (opt_linkRegister c) _ Hduring) as [-> ->].
  rewrite (column_traces _ _ _ _ _ _ Hduring). split; [done|]. split; [done|].
  unfold during_call_column. rewrite !fmap_app, bar_y_argument_bars.
  by destruct (opt_returnValueOnCallStack c), (opt_linkRegister c).
Qed.

Lemma chart_data_heights r c :
  exact c ->
  total_height (column "Before Call" (chart_data r c)) = Ok #(opt_returnValueSize c) /\
  total_height (column "After Call" (chart_data r c)) = Ok #(opt_returnValueSize c) /\
  total_height (column "During Call" (chart_data r c))
  = Ok #(opt_returnValueSize c
         + frame_bytes (opt_returnValueSize c) (opt_returnValueOnCallStack c)
             (opt_callArgs c) (opt_linkRegister c) (opt_padding c)).
Proof.
  unfold exact. intros Hexact.
  pose proof (magnitude_nonneg (arg_size <$> opt_callArgs c)) as Hnonneg.
  destruct (chart_data_columns r c) as (Hbefore & Hafter & Hduring).
  unfold total_height. rewrite Hbefore, Hafter, Hduring.
  split; [|split].
  - rewrite (reduce_integers 0 [_]) by (cbn; lia). do 3 f_equal. cbn. lia.
  - rewrite (reduce_integers 0 [_]) by (cbn; lia). do 3 f_equal. cbn. lia.
  - rewrite reduce_integers.
    + do 3 f_equal. unfold frame_bytes. rewrite !sum_of_app, total_size_sum.
      destruct (opt_returnValueOnCallStack c), (opt_linkRegister c); cbn; lia.
    + rewrite !magnitude_app.
      destruct (opt_returnValueOnCallStack c), (opt_linkRegister c); cbn; lia.
Qed.

(** What the label says is what is drawn.  For well-typed options with
    byte counts small enough for the sums to be exact, the bars of the
    Before Call and of the After Call column add up to
    [returnValueSize], and the bars of the During Call column add up to
    [returnValueSize] plus the frame size reported in the layout: the
    frame's bars, stacked on the caller's return variable, are exactly
    as high as the "N Bytes" label claims. *)
Theorem column_heights r c w options :
  to_object c ⊆ heap w options ->
  exact c ->
  exists data lay frameSize,
    createCallStackChart r options w
    = (after w (calls r (VStr (opt_id c)) data lay), Ok tt) /\
    layout_callStackFrameSize lay = #frameSize /\
    total_height (column "Before Call" data) = Ok #(opt_returnValueSize c) /\
    total_height (column "After Call" data) = Ok #(opt_returnValueSize c) /\
    total_height (column "During Call" data) = Ok #(opt_returnValueSize c + frameSize).
Proof.
  intros Hsub Hexact. eexists _, _, _. split; [by apply run_typed|].
  split; [by destruct r|]. by apply chart_data_heights.
Qed.

(** On the struct-returning call: 32 below the frame, 44 of frame. *)
Lemma column_heights_example :
  exists data lay,
    createCallStackChart Rev_ById 0%nat (holding (to_object struct_return))
    = (after (holding (to_object struct_return))
         (calls Rev_ById (VStr "call-stack-chart") data lay), Ok tt) /\
    layout_callStackFrameSize lay = #44 /\
    total_height (column "Before Call" data) = Ok #32 /\
    total_height (column "After Call" data) = Ok #32 /\
    total_height (column "During Call" data) = Ok #76.
Proof.
  assert (to_object struct_return ⊆ heap (holding (to_object struct_return)) 0%nat)
    as Hsub by reflexivity.
  assert (exact struct_return) as Hexact by (vm_compute; discriminate).
  destruct (column_heights Rev_ById struct_return (holding (to_object struct_return)) 0%nat
              Hsub Hexact) as (data & lay & frameSize & Hrun & Hframe & Hheights).
  assert (frameSize = 44) as ->.
  { rewrite (run_typed Rev_ById struct_return _ _ Hsub Hexact) in Hrun.
    apply completes_inj in Hrun. injection Hrun as _ <-.
    vm_compute in Hframe. congruence. }
  by exists data, lay.
Defined.

(** ** Layout geometry *)

Lemma to_str_integer z : - limit <= z <= limit -> to_str #z = Ok (pretty z).
Proof. intros Hz. cbn. by rewrite (proj2 (safe_spec z) Hz). Qed.

Lemma js_sub_int x y :
  - limit <= x <= limit -> - limit <= y <= limit -> - limit <= x - y <= limit ->
  js_sub #x #y = Ok #(x - y).
Proof. intros Hx Hy Hxy. by rewrite js_sub_num, num_sub_exact. Qed.

Lemma js_div_2 x :
  - limit <= x <= limit -> x mod 2 = 0 -> js_div #x #2 = Ok #(x / 2).
Proof.
  intros Hx Heven. unfold js_div, arith. cbn [to_primitive to_number determined mbind
    result_bind]. unfold num_div.
  rewrite (proj2 (safe_spec x) Hx).
  by rewrite (proj2 (Z.eqb_eq _ _) Heven).
Qed.

(** The overlays frame the stack.  For well-typed options with byte
    counts small enough for the sums to be exact, with [bottom] the
    height of the Before Call column and [top] the height of the During
    Call column: the horizontal line lies at [bottom]; the dotted
    rectangle reaches from 4 below [bottom] to 4 above [top]; the
    "N Bytes" label sits 2 above [top] and reads [top - bottom]; the
    "Function Call" label sits half way between [bottom] and [top]
    (stated where that is an integer). *)
Theorem layout_frames_the_stack r c w options :
  to_object c ⊆ heap w options ->
  exact c ->
  exists data lay bottom top,
    createCallStackChart r options w
    = (after w (calls r (VStr (opt_id c)) data lay), Ok tt) /\
    total_height (column "Before Call" data) = Ok #bottom /\
    total_height (column "During Call" data) = Ok #top /\
    line_y lay = #bottom /\
    rect_y0 lay = Ok #(bottom - 4) /\
    rect_y1 lay = Ok #(top + 4) /\
    bytes_y lay = Ok #(top + 2) /\
    bytes_text lay = Ok (pretty (top - bottom) +:+ " Bytes") /\
    ((top - bottom) mod 2 = 0 -> function_call_y lay = Ok #((bottom + top) / 2)).
Proof.
  intros Hsub Hexact. destruct (chart_data_heights r c Hexact) as (Hbefore & _ & Hduring).
  eexists _, _, _, _. split; [by apply run_typed|].
  split; [exact Hbefore|]. split; [exact Hduring|].
  unfold exact in Hexact. unfold limit in Hexact.
  pose proof (magnitude_nonneg (arg_size <$> opt_callArgs c)) as Hnonneg.
  pose proof (total_size_magnitude (opt_callArgs c)) as Htotal.
  unfold line_y, rect_y0, rect_y1, bytes_y, bytes_text, function_call_y, chart_layout.
  set (rv := opt_returnValueSize c) in *.
  set (frameSize := frame_bytes rv (opt_returnValueOnCallStack c) (opt_callArgs c)
                      (opt_linkRegister c) (opt_padding c)).
  assert (Z.abs frameSize <= Z.abs rv + magnitude (arg_size <$> opt_callArgs c)
                             + 8 + Z.abs (opt_padding c)) as Hframe.
  { unfold frameSize, frame_bytes.
    destruct (opt_returnValueOnCallStack c), (opt_linkRegister c); lia. }
  assert (layout_returnValueSize
            (make_layout r (VStr (opt_title c)) #(opt_yMax c) #rv #frameSize) = #rv)
    as -> by by destruct r.
  assert (layout_callStackFrameSize
            (make_layout r (VStr (opt_title c)) #(opt_yMax c) #rv #frameSize) = #frameSize)
    as -> by by destruct r.
  split; [reflexivity|].
  split; [by rewrite js_sub_int by (unfold limit; lia)|].
  rewrite js_add_int by (unfold limit; lia). cbn [mbind result_bind].
  split; [by rewrite js_add_int by (unfold limit; lia)|].
  split; [by rewrite js_add_int by (unfold limit; lia)|].
  replace (rv + frameSize - rv) with frameSize by lia.
  split; [by rewrite to_str_integer by (unfold limit; lia)|].
  intros Heven. rewrite js_div_2 by (unfold limit; lia). cbn [mbind result_bind].
  rewrite js_add_int.
  - do 3 f_equal. replace (rv + (rv + frameSize)) with (frameSize + rv * 2) by lia.
    rewrite Z.div_add by lia. lia.
  - unfold limit; lia.
  - pose proof (Z.div_lt_upper_bound frameSize 2 (Z.abs frameSize + 1)).
    pose proof (Z.div_le_lower_bound frameSize 2 (- Z.abs frameSize - 1)).
    unfold limit; lia.
  - pose proof (Z.div_lt_upper_bound frameSize 2 (Z.abs frameSize + 1)).
    pose proof (Z.div_le_lower_bound frameSize 2 (- Z.abs frameSize - 1)).
    unfold limit; lia.
Qed.

(** The struct-returning call: line at 32, rectangle from 28 to 80,
    "Function Call" at 54, "44 Bytes" at 78. *)
Lemma layout_frames_the_stack_example :
  exists data lay,
    createCallStackChart Rev_ById 0%nat (holding (to_object struct_return))
    = (after (holding (to_object struct_return))
         (calls Rev_ById (VStr "call-stack-chart") data lay), Ok tt) /\
    line_y lay = #32 /\
    rect_y0 lay = Ok #28 /\
    rect_y1 lay = Ok #80 /\
    function_call_y lay = Ok #54 /\
    bytes_y lay = Ok #78 /\
    bytes_text lay = Ok "44 Bytes".
Proof.
  assert (to_object struct_return ⊆ heap (holding (to_object struct_return)) 0%nat)
    as Hsub by reflexivity.
  assert (exact struct_return) as Hexact by (vm_compute; discriminate).
  destruct (layout_frames_the_stack Rev_ById struct_return
              (holding (to_object struct_return)) 0%nat Hsub Hexact)
    as (data & lay & bottom & top & Hrun & Hbottom & Htop & Hline & Hy0 & Hy1 & Hbytes
        & Htext & Hcall).
  rewrite (run_typed Rev_ById struct_return _ _ Hsub Hexact) in Hrun.
  apply completes_inj in Hrun. injection Hrun as <- <-.
  assert (bottom = 32) as -> by (vm_compute in Hbottom; congruence).
  assert (top = 76) as -> by (vm_compute in Htop; congruence).
  eexists _, _. split; [exact (run_typed Rev_ById struct_return _ _ Hsub Hexact)|].
  split; [exact Hline|]. split; [exact Hy0|]. split; [exact Hy1|].
  split; [apply Hcall; reflexivity|]. split; [exact Hbytes|exact Htext].
Defined.

(** ** Sizes that are not numbers *)

Lemma js_add_string a b v :
  js_add a b = Ok v ->
  (exists s, a = VStr s) \/ stringy b = true ->
  exists s, v = VStr s.
Proof.
  unfold js_add, stringy. intros Hadd Hstring.
  destruct (to_primitive a) as [p| |] eqn:Hp; try discriminate.
  destruct (to_primitive b) as [q| |] eqn:Hq; try discriminate.
  cbn [mbind result_bind] in Hadd.
  assert ((exists s, p = VStr s) \/ (exists s, q = VStr s)) as Hcases.
  { destruct Hstring as [[s ->]|Hb]; [left|right].
    - injection Hp as <-. by exists s.
    - destruct q; try discriminate. by eexists. }
  destruct Hcases as [[s ->]|[s ->]]; [|destruct p]; cbv beta iota in Hadd;
    repeat match type of Hadd with
           | (?r ≫= _) = Ok _ =>
               destruct r as [?| |]; cbn [mbind result_bind] in Hadd; try discriminate
           end;
    injection Hadd as <-; by eexists.
Qed.

Lemma fold_sizes_string sizes acc total :
  reduce_from js_add acc sizes = Ok total ->
  (exists s, acc = VStr s) \/ Exists (fun size => stringy size = true) sizes ->
  exists s, total = VStr s.
Proof.
  revert acc. induction sizes as [|size rest IH]; intros acc Hfold Hstring;
    cbn [reduce_from] in Hfold.
  - injection Hfold as <-. destruct Hstring as [Hacc|Hex]; [exact Hacc|].
    by apply Exists_nil in Hex.
  - destruct (js_add acc size) as [acc'| |] eqn:Hadd; try discriminate.
    apply (IH acc' Hfold). destruct Hstring as [Hacc|Hex].
    + left. apply (js_add_string _ _ _ Hadd). by left.
    + apply Exists_cons in Hex as [Hhd|Htl]; [left|by right].
      apply (js_add_string _ _ _ Hadd). by right.
Qed.

Lemma fold_sizes_number sizes acc :
  Forall (fun size => addable size = true) sizes ->
  exists total, reduce_from js_add (VNum acc) sizes = Ok (VNum total) /\
    (acc = NaN \/ Exists (fun size => size = VUndefined) sizes -> total = NaN).
Proof.
  intros Hall. revert acc. induction Hall as [|size rest Hsize _ IH]; intros acc;
    cbn [reduce_from].
  - eexists. split; [reflexivity|]. intros [->|Hex]; [reflexivity|].
    by apply Exists_nil in Hex.
  - destruct (addable_number _ Hsize) as (n & Hn & ->). cbn [mbind result_bind].
    destruct (IH (num_add acc n)) as (total & -> & Hnan).
    eexists. split; [reflexivity|]. intros Hcases. apply Hnan.
    destruct Hcases as [->|Hex]; [left; apply num_add_NaN_l|].
    apply Exists_cons in Hex as [->|Htl]; [left|by right].
    injection Hn as <-. apply num_add_NaN_r.
Qed.

(** The entries' sizes are never checked, and [+] takes them as they
    come.  Whenever an invocation on valid options plots: if some
    entry's [size] is a string (or an array or object that converts to
    one) the frame size it reports is a string, the operands
    concatenated; if every entry's [size] is a primitive other than a
    string, it is a number; and if moreover some entry has no [size] at
    all, that number is [NaN]. *)
Theorem frame_size_type r w options rv b elems lr p frameSize :
  accepted (argumentTypeNames r) (heap w options) ->
  reads (heap w options) rv b elems lr p ->
  frame_size_is rv b elems lr p frameSize ->
  named elems = true ->
  exists data lay,
    createCallStackChart r options w
    = (after w (calls r (property (heap w options) "id") data lay), Ok tt) /\
    layout_callStackFrameSize lay = frameSize /\
    (Exists (fun e => stringy (own e "size") = true) elems ->
     exists s, frameSize = VStr s) /\
    (Forall (fun e => addable (own e "size") = true) elems ->
     exists n, frameSize = VNum n) /\
    (Forall (fun e => addable (own e "size") = true) elems ->
     Exists (fun e => own e "size" = VUndefined) elems ->
     frameSize = VNum NaN).
Proof.
  intros Hok Hreads Hsize Hnames. plot. split; [by destruct r|].
  pose proof (frame_size_is_destructurable _ _ _ _ _ _ Hsize) as Hall.
  unfold frame_size_is in Hsize. rewrite callStackFrameSize_array in Hsize.
  rewrite (reduce_own elems #0 Hall) in Hsize.
  split; [|split].
  - intros Hex.
    destruct (reduce_from js_add #0 _) as [args| |] eqn:Hargs; try discriminate.
    destruct (fold_sizes_string _ _ _ Hargs) as [s ->].
    { right. apply Exists_fmap. exact Hex. }
    cbn [mbind result_bind] in Hsize.
    destruct (js_add _ (VStr s)) as [sum1| |] eqn:H1; try discriminate.
    destruct (js_add_string _ _ _ H1 (or_intror eq_refl)) as [s1 ->].
    cbn [mbind result_bind] in Hsize.
    destruct (js_add (VStr s1) _) as [sum2| |] eqn:H2; try discriminate.
    destruct (js_add_string _ _ _ H2 (or_introl (ex_intro _ s1 eq_refl))) as [s2 ->].
    cbn [mbind result_bind] in Hsize.
    destruct (js_add (VStr s2) _) as [sum3| |] eqn:H3; try discriminate.
    destruct (js_add_string _ _ _ H3 (or_introl (ex_intro _ s2 eq_refl))) as [s3 ->].
    cbn [mbind result_bind] in Hsize.
    exact (js_add_string _ _ _ Hsize (or_introl (ex_intro _ s3 eq_refl))).
  - intros Hnum.
    destruct (fold_sizes_number ((fun e => own e "size") <$> elems) (Int 0))
      as (total & Htotal & _); [by apply Forall_fmap|].
    rewrite Htotal in Hsize. cbn [mbind result_bind] in Hsize.
    destruct lr; rewrite !js_add_num in Hsize; cbn [mbind result_bind] in Hsize;
      rewrite !js_add_num in Hsize; cbn [mbind result_bind] in Hsize;
      rewrite !js_add_num in Hsize; injection Hsize as <-; by eexists.
  - intros Hnum Hex.
    destruct (fold_sizes_number ((fun e => own e "size") <$> elems) (Int 0))
      as (total & Htotal & Hnan); [by apply Forall_fmap|].
    rewrite Htotal, Hnan in Hsize by (right; by apply Exists_fmap).
    cbn [mbind result_bind] in Hsize.
    destruct lr; rewrite !js_add_num in Hsize; cbn [mbind result_bind] in Hsize;
      rewrite !js_add_num in Hsize; cbn [mbind result_bind] in Hsize;
      rewrite !js_add_num in Hsize; injection Hsize as <-;
      by rewrite num_add_NaN_r, !num_add_NaN_l.
Qed.

(** The example with the argument's size given as the string ["4"], and
    with the argument's size left out. *)
Lemma frame_size_type_example :
  (exists data lay,
     createCallStackChart Rev_ById 0%nat (holding string_sized)
     = (after (holding string_sized) (calls Rev_ById (VStr "chart") data lay), Ok tt) /\
     layout_callStackFrameSize lay = VStr "004444") /\
  (exists data lay,
     createCallStackChart Rev_ById 0%nat (holding unsized)
     = (after (holding unsized) (calls Rev_ById (VStr "chart") data lay), Ok tt) /\
     layout_callStackFrameSize lay = VNum NaN).
Proof.
  split.
  - assert (accepted (argumentTypeNames Rev_ById) (heap (holding string_sized) 0%nat))
      as Hok by repeat constructor.
    assert (reads (heap (holding string_sized) 0%nat) (Int 4) false
              [VObj (<["name" := VStr "x"]> (<["size" := VStr "4"]>
                       (<["color" := VStr "red"]> ∅)))] true (Int 4))
      as Hreads by (repeat split; reflexivity).
    assert (frame_size_is (Int 4) false
              [VObj (<["name" := VStr "x"]> (<["size" := VStr "4"]>
                       (<["color" := VStr "red"]> ∅)))] true (Int 4) (VStr "004444"))
      as Hsize by reflexivity.
    destruct (frame_size_type Rev_ById (holding string_sized) 0%nat _ _ _ _ _ _
                Hok Hreads Hsize eq_refl) as (data & lay & Hrun & Hlay & _).
    by exists data, lay.
  - assert (accepted (argumentTypeNames Rev_ById) (heap (holding unsized) 0%nat))
      as Hok by repeat constructor.
    assert (reads (heap (holding unsized) 0%nat) (Int 4) false
              [VObj (<["name" := VStr "x"]> (<["color" := VStr "red"]> ∅))] true (Int 4))
      as Hreads by (repeat split; reflexivity).
    assert (frame_size_is (Int 4) false
              [VObj (<["name" := VStr "x"]> (<["color" := VStr "red"]> ∅))] true (Int 4)
              (VNum NaN))
      as Hsize by reflexivity.
    destruct (frame_size_type Rev_ById (holding unsized) 0%nat _ _ _ _ _ _
                Hok Hreads Hsize eq_refl) as (data & lay & Hrun & Hlay & _).
    by exists data, lay.
Defined.

(** ** What an invocation depends on *)

Lemma prepared_agree r o o' :
  (forall arg, arg ∈ (argumentTypeNames r).*1 -> o !! arg = o' !! arg) ->
  prepared r o = prepared r o'.
Proof.
  intros Hagree.
  assert (forall arg, arg ∈ (argumentTypeNames r).*1 -> property o arg = property o' arg)
    as Hp.
  { intros arg Harg. unfold property. by rewrite (Hagree arg Harg). }
  unfold prepared. destruct r; cbn [calls].
  - rewrite (Hp "id"), (Hp "title"), (Hp "returnValueSize"),
      (Hp "returnValueOnCallStack"), (Hp "callArgs"), (Hp "linkRegister"),
      (Hp "padding"), (Hp "yMax") by (cbn; repeat constructor).
    reflexivity.
  - rewrite (Hp "title"), (Hp "returnValueSize"),
      (Hp "returnValueOnCallStack"), (Hp "callArgs"), (Hp "linkRegister"),
      (Hp "padding"), (Hp "yMax") by (cbn; repeat constructor).
    reflexivity.
Qed.

Lemma run_agree r w options w' options' :
  (forall arg, arg ∈ (argumentTypeNames r).*1 ->
               heap w options !! arg = heap w' options' !! arg) ->
  exists res,
    createCallStackChart r options w = finish w res /\
    createCallStackChart r options' w' = finish w' res.
Proof.
  intros Hagree.
  assert (forall row, row ∈ argumentTypeNames r ->
            has_type (heap w options) row <-> has_type (heap w' options') row) as Hrows.
  { intros row Hrow.
    assert (row.1 ∈ (argumentTypeNames r).*1) as Hkey
      by (apply list_elem_of_fmap; eauto).
    split; apply has_type_agree; [|symmetry]; by apply Hagree. }
  destruct (decide (accepted (argumentTypeNames r) (heap w options))) as [Hok|Hbad].
  - exists (prepared r (heap w options)). split; [by apply run_accepted|].
    rewrite (prepared_agree r _ _ Hagree). apply run_accepted.
    apply Forall_forall. intros row Hrow. apply Hrows; [done|].
    by apply (proj1 (Forall_forall _ _) Hok).
  - destruct (first_mismatch _ _ Hbad) as (pre & row & post & Htable & Hpre & Hrow).
    exists (Throw (expected row)).
    split; [by apply (run_rejected r options w pre row post)|].
    apply (run_rejected r options' w' pre row post); [done| |].
    + apply Forall_forall. intros row' Hrow'. apply Hrows.
      * rewrite Htable. apply elem_of_app. by left.
      * by apply (proj1 (Forall_forall _ _) Hpre).
    + intros Hrow'. apply Hrow, Hrows; [|done].
      rewrite Htable. apply elem_of_app. right. by left.
Qed.


(** The function reads the fields of its type table and nothing else:
    invoked on two options objects that agree on those fields (whatever
    else they carry, whatever the rest of the heap holds and whatever
    was plotted before), it raises the same error in both or makes the
    same calls in both. *)
Theorem reads_table_fields_only r w options w' options' :
  (forall arg, arg ∈ (argumentTypeNames r).*1 ->
               heap w options !! arg = heap w' options' !! arg) ->
  (forall e, createCallStackChart r options w = (w, Throw e) <->
             createCallStackChart r options' w' = (w', Throw e)) /\
  (forall es, createCallStackChart r options w = (after w es, Ok tt) <->
              createCallStackChart r options' w' = (after w' es, Ok tt)).
Proof.
  intros Hagree. destruct (run_agree r w options w' options' Hagree) as (res & -> & ->).
  destruct res as [es0|e0|]; cbn [finish]; split; intros x; split; intros Heq;
    try discriminate; injection Heq as Heq; try (by subst).
  - apply after_inj in Heq. by subst.
  - apply after_inj in Heq. by subst.
Qed.

(** The example, and the example carrying a field the function does not
    know, at another reference, after an earlier plot. *)
Lemma reads_table_fields_only_example :
  createCallStackChart Rev_ById 1%nat
    (after (holding (<["colour" := VStr "blue"]> (to_object example)))
       [appendChild (VStr "chart") ById.sourceLink])
  = (after (after (holding (<["colour" := VStr "blue"]> (to_object example)))
              [appendChild (VStr "chart") ById.sourceLink])
       (calls Rev_ById (VStr "chart") (chart_data Rev_ById example)
          (chart_layout Rev_ById example)),
     Ok tt).
Proof.
  assert (forall arg, arg ∈ (argumentTypeNames Rev_ById).*1 ->
            heap (holding (to_object example)) 0%nat !! arg
            = heap (after (holding (<["colour" := VStr "blue"]> (to_object example)))
                      [appendChild (VStr "chart") ById.sourceLink]) 1%nat !! arg)
    as Hagree.
  { intros arg Harg. cbn in Harg.
    repeat (apply elem_of_cons in Harg as [->|Harg]; [reflexivity|]).
    by apply elem_of_nil in Harg. }
  assert (to_object example ⊆ heap (holding (to_object example)) 0%nat) as Hsub
    by reflexivity.
  assert (exact example) as Hexact by (vm_compute; discriminate).
  exact (proj1 (proj2 (reads_table_fields_only Rev_ById (holding (to_object example)) 0%nat
                         _ 1%nat Hagree) _)
           (run_typed Rev_ById example 0%nat (holding (to_object example)) Hsub Hexact)).
Defined.


(** ** The two revisions *)

Lemma argumentBar_plain e index :
  match ById.argumentBar e index with
  | Ok x => Fixed.argumentBar e index = Ok (plain x)
  | Throw err => Fixed.argumentBar e index = Throw err
  | Unmodelled => Fixed.argumentBar e index = Unmodelled
  end.
Proof.
  unfold ById.argumentBar, Fixed.argumentBar.
  destruct (destructure e "name") as [name| |]; try reflexivity. cbn [mbind result_bind].
  destruct (destructure e "size") as [size| |]; try reflexivity. cbn [mbind result_bind].
  destruct (destructure e "color") as [color| |]; try reflexivity. cbn [mbind result_bind].
  by destruct (to_str name).
Qed.

Lemma map_from_plain elems index :
  match map_from ById.argumentBar index elems with
  | Ok bars => map_from Fixed.argumentBar index elems = Ok (plain <$> bars)
  | Throw err => map_from Fixed.argumentBar index elems = Throw err
  | Unmodelled => map_from Fixed.argumentBar index elems = Unmodelled
  end.
Proof.
  revert index. induction elems as [|e rest IH]; intros index; [reflexivity|].
  cbn [map_from]. pose proof (argumentBar_plain e index) as Hhd.
  destruct (ById.argumentBar e index) as [x|err|]; rewrite Hhd; try reflexivity.
  cbn [mbind result_bind]. specialize (IH (S index)).
  destruct (map_from ById.argumentBar (S index) rest) as [bars|err|]; by rewrite IH.
Qed.

Lemma traces_plain rv b lr p bars :
  Fixed.traces rv b lr p (plain <$> bars) = plain <$> ById.traces rv b lr p bars.
Proof.
  unfold Fixed.traces, ById.traces.
  destruct (to_boolean b), (to_boolean lr); by rewrite !fmap_app.
Qed.

Lemma prepared_plain o :
  match prepared Rev_ById o with
  | Ok es =>
      exists data frameSize,
        es = calls Rev_ById (property o "id") data
               (ById.make_layout (property o "title") (property o "yMax")
                  (property o "returnValueSize") frameSize) /\
        prepared Rev_Fixed o
        = Ok (calls Rev_Fixed (property o "id") (plain <$> data)
                (Fixed.make_layout (property o "title") (property o "yMax")
                   (property o "returnValueSize") frameSize))
  | Throw err => prepared Rev_Fixed o = Throw err
  | Unmodelled => prepared Rev_Fixed o = Unmodelled
  end.
Proof.
  unfold prepared.
  destruct (callStackFrameSize _ _ _ _ _) as [frameSize|err|]; try reflexivity.
  cbn [mbind result_bind argumentBar]. unfold Array_map.
  destruct (property o "callArgs") as [| | | | |elems|]; try reflexivity.
  pose proof (map_from_plain elems 0%nat) as Hmap.
  destruct (map_from ById.argumentBar 0%nat elems) as [bars|err|]; rewrite Hmap;
    try reflexivity.
  cbn [traces calls make_layout]. eexists _, _. split; [reflexivity|].
  cbn [mbind result_bind]. by rewrite traces_plain.
Qed.

Lemma accepted_by_id o :
  accepted ById.argumentTypeNames o
  <-> typeof (property o "id") = "string" /\ accepted Fixed.argumentTypeNames o.
Proof. unfold accepted, ById.argumentTypeNames. by rewrite Forall_cons. Qed.

(** The second revision is the first without the [id] option, the fill
    patterns, the margin and the source link.  On options whose [id] is
    a string the two raise the same errors.  Whenever the first plots
    some bars in the element [id] and appends its link there, its layout
    has the margin 40, 0, 100, 40 and places the "Function Call" label
    at 0.38 on the x axis; the second then plots the same bars in the
    same order, their patterns dropped, in the element
    ['call-stack-chart'], under the layout that differs from the first
    in having no margin and in placing that label at 0.33 of the paper,
    and appends nothing.  The second plots only when the first does. *)
Theorem second_revision_differs w options :
  typeof (property (heap w options) "id") = "string" ->
  (forall e, createCallStackChart Rev_ById options w = (w, Throw e) <->
             createCallStackChart Rev_Fixed options w = (w, Throw e)) /\
  (forall data lay,
     createCallStackChart Rev_ById options w
     = (after w [Plotly_newPlot (property (heap w options) "id") data lay;
                 appendChild (property (heap w options) "id") ById.sourceLink], Ok tt) ->
     layout_margin lay
     = Some {| margin_l := 40; margin_r := 0; margin_t := 100; margin_b := 40 |} /\
     layout_function_call_x lay = 0.38%float /\
     layout_function_call_xref lay = "x" /\
     createCallStackChart Rev_Fixed options w
     = (after w [Plotly_newPlot (VStr "call-stack-chart") (plain <$> data)
                   {| layout_title := layout_title lay;
                      layout_yMax := layout_yMax lay;
                      layout_margin := None;
                      layout_function_call_x := 0.33;
                      layout_function_call_xref := "paper";
                      layout_returnValueSize := layout_returnValueSize lay;
                      layout_callStackFrameSize := layout_callStackFrameSize lay |}],
        Ok tt)) /\
  (forall es,
     createCallStackChart Rev_Fixed options w = (after w es, Ok tt) ->
     exists data lay,
       createCallStackChart Rev_ById options w
       = (after w [Plotly_newPlot (property (heap w options) "id") data lay;
                   appendChild (property (heap w options) "id") ById.sourceLink], Ok tt)).
Proof.
  intros Hid.
  destruct (decide (accepted Fixed.argumentTypeNames (heap w options))) as [Hok|Hbad].
  - assert (accepted ById.argumentTypeNames (heap w options)) as Hok1
      by by apply accepted_by_id.
    rewrite (run_accepted Rev_ById options w Hok1), (run_accepted Rev_Fixed options w Hok).
    pose proof (prepared_plain (heap w options)) as Hplain.
    destruct (prepared Rev_ById (heap w options)) as [es1|err|].
    + destruct Hplain as (data1 & frameSize & -> & ->). cbn [finish calls].
      split; [|split].
      * intros e; split; discriminate.
      * intros data lay Heq. apply completes_inj in Heq.
        injection Heq as -> <-. by repeat split.
      * intros es _. by eexists _, _.
    + rewrite Hplain. cbn [finish]. split; [done|]. split; intros; discriminate.
    + rewrite Hplain. cbn [finish]. split; [done|]. split; intros; discriminate.
  - destruct (first_mismatch _ _ Hbad) as (pre & row & post & Htable & Hpre & Hrow).
    rewrite (run_rejected Rev_Fixed options w pre row post Htable Hpre Hrow).
    rewrite (run_rejected Rev_ById options w (("id", "string") :: pre) row post).
    + split; [done|]. split; intros; discriminate.
    + cbn [argumentTypeNames] in *. unfold ById.argumentTypeNames.
      unfold Fixed.argumentTypeNames in Htable. by rewrite Htable.
    + by apply Forall_cons.
    + done.
Qed.

Lemma second_revision_differs_example :
  createCallStackChart Rev_Fixed 0%nat (holding (to_object example))
  = (after (holding (to_object example))
       [Plotly_newPlot (VStr "call-stack-chart") (plain <$> chart_data Rev_ById example)
          (chart_layout Rev_Fixed example)], Ok tt).
Proof.
  assert (typeof (property (heap (holding (to_object example)) 0%nat) "id") = "string")
    as Hid by reflexivity.
  assert (to_object example ⊆ heap (holding (to_object example)) 0%nat) as Hsub
    by reflexivity.
  assert (exact example) as Hexact by (vm_compute; discriminate).
  exact (proj2 (proj2 (proj2
           (proj1 (proj2 (second_revision_differs (holding (to_object example)) 0%nat Hid))
              (chart_data Rev_ById example) (chart_layout Rev_ById example)
              (run_typed Rev_ById example 0%nat (holding (to_object example)) Hsub Hexact))))).
Defined.

(** ** What the frame size depends on *)

Lemma sum_permutation (sizes sizes' : list Z) :
  sizes ≡ₚ sizes' -> sum_of sizes = sum_of sizes'.
Proof. unfold sum_of. induction 1; cbn [foldr]; lia. Qed.

(** For well-typed options with byte counts small enough for the sums
    to be exact, the frame size is a function of the sizes alone: it is
    the same for two options objects whose arguments have the same
    sizes in any order (under any names and colours), that agree on
    [returnValueOnCallStack], [linkRegister] and [padding], and on
    [returnValueSize] when the return value is on the call stack; [id],
    [title], [yMax] and a return value held in registers play no
    part. *)
Theorem frame_size_depends_on_sizes r c c' :
  exact c -> exact c' ->
  arg_size <$> opt_callArgs c ≡ₚ arg_size <$> opt_callArgs c' ->
  opt_returnValueOnCallStack c = opt_returnValueOnCallStack c' ->
  (opt_returnValueOnCallStack c = true -> opt_returnValueSize c = opt_returnValueSize c') ->
  opt_linkRegister c = opt_linkRegister c' ->
  opt_padding c = opt_padding c' ->
  frame_size_of r c = frame_size_of r c'.
Proof.
  intros Hexact Hexact' Hsizes Hb Hrv Hlr Hp.
  rewrite !frame_size_of_typed by done. unfold frame_bytes.
  rewrite !total_size_sum, (sum_permutation _ _ Hsizes), <- Hb, <- Hlr, <- Hp.
  destruct (opt_returnValueOnCallStack c); [by rewrite Hrv|reflexivity].
Qed.

(** Two arguments of 4 and 8 bytes, against the same two the other way
    round, renamed and recoloured, under another title, with a larger
    return value in registers. *)
Lemma frame_size_depends_on_sizes_example :
  frame_size_of Rev_ById
    (set_callArgs [ {| arg_name := "x"; arg_size := 4; arg_color := "red" |};
                    {| arg_name := "y"; arg_size := 8; arg_color := "green" |} ] example)
  = frame_size_of Rev_ById
      {| opt_id := "other";
         opt_title := "Another chart";
         opt_returnValueSize := 8;
         opt_returnValueOnCallStack := false;
         opt_callArgs := [ {| arg_name := "a"; arg_size := 8; arg_color := "blue" |};
                           {| arg_name := "b"; arg_size := 4; arg_color := "pink" |} ];
         opt_linkRegister := true;
         opt_padding := 4;
         opt_yMax := 64 |}.
Proof.
  apply frame_size_depends_on_sizes; try (vm_compute; discriminate);
    cbn; try reflexivity; try discriminate.
  apply perm_swap.
Defined.

(** ** Labels of the argument bars *)

Lemma pretty_N_char_spaceless x : pretty_N_char x <> " "%char.
Proof. unfold pretty_N_char. repeat case_match; discriminate. Qed.

Lemma pretty_N_go_spaceless x s : spaceless s -> spaceless (pretty_N_go x s).
Proof.
  revert s. induction (N.lt_wf_0 x) as [x _ IH]. intros s Hs.
  destruct (decide (x = 0)%N) as [->|Hx]; [by rewrite pretty_N_go_0|].
  rewrite pretty_N_go_step by lia. apply IH.
  - apply N.div_lt; lia.
  - split; [apply pretty_N_char_spaceless|exact Hs].
Qed.

Lemma pretty_nat_spaceless (i : nat) : spaceless (pretty i).
Proof.
  unfold pretty, pretty_nat, pretty, pretty_N. case_decide.
  - split; [discriminate|exact I].
  - by apply pretty_N_go_spaceless.
Qed.

Lemma spaceless_prefix d d' rest rest' :
  spaceless d -> spaceless d' ->
  d +:+ String " " rest = d' +:+ String " " rest' -> d = d'.
Proof.
  revert d'. induction d as [|c d IH]; intros [|c' d'] Hd Hd' Heq; cbn in *.
  - reflexivity.
  - injection Heq as Hc _. destruct Hd' as [Hc' _]. by destruct Hc'.
  - injection Heq as Hc _. destruct Hd as [Hc' _]. by destruct Hc'.
  - injection Heq as -> Heq. f_equal. apply IH; [apply Hd|apply Hd'|exact Heq].
Qed.

Lemma label_index_inj (i j : nat) name name' :
  "Argument " +:+ pretty i +:+ " (" +:+ name +:+ ")"
  = "Argument " +:+ pretty j +:+ " (" +:+ name' +:+ ")" ->
  i = j.
Proof.
  intros Heq. cbn in Heq. injection Heq as Heq.
  apply (inj pretty), (spaceless_prefix _ _ _ _ (pretty_nat_spaceless i)
                         (pretty_nat_spaceless j) Heq).
Qed.

(** For every valid options object no two argument bars carry the same
    label, whatever the entries are called: the index in the label
    tells them apart even when two entries share a name, or when a name
    itself looks like part of a label. *)
Theorem argument_labels_distinct r w options rv b elems lr p frameSize :
  accepted (argumentTypeNames r) (heap w options) ->
  reads (heap w options) rv b elems lr p ->
  frame_size_is rv b elems lr p frameSize ->
  named elems = true ->
  exists data lay,
    createCallStackChart r options w
    = (after w (calls r (property (heap w options) "id") data lay), Ok tt) /\
    NoDup (bar_text <$> argument_segments (column "During Call" data)).
Proof.
  intros Hok Hreads Hsize Hnames. plot.
  rewrite (column_traces _ _ _ _ _ _ (bars_during r elems)).
  rewrite (argument_segments_during_call_column _ _ _ _ _ _ (bars_labels r elems)).
  apply NoDup_alt. intros i j text Hi Hj.
  rewrite list_lookup_fmap, list_lookup_imap in Hi, Hj.
  destruct (elems !! i) as [e|]; [|discriminate].
  destruct (elems !! j) as [e'|]; [|discriminate].
  cbn in Hi, Hj. injection Hi as Hi. injection Hj as Hj. subst text.
  symmetry. exact (label_index_inj _ _ _ _ Hj).
Qed.

(** Two arguments under the same name. *)
Lemma argument_labels_distinct_example :
  exists data lay,
    createCallStackChart Rev_ById 0%nat (holding (to_object namesakes))
    = (after (holding (to_object namesakes)) (calls Rev_ById (VStr "chart") data lay),
       Ok tt) /\
    NoDup (bar_text <$> argument_segments (column "During Call" data)).
Proof.
  assert (accepted (argumentTypeNames Rev_ById) (heap (holding (to_object namesakes)) 0%nat))
    as Hok by repeat constructor.
  assert (reads (heap (holding (to_object namesakes)) 0%nat)
            (Int 4) false (entry <$> opt_callArgs namesakes) true (Int 4))
    as Hreads by (repeat split; reflexivity).
  assert (frame_size_is (Int 4) false (entry <$> opt_callArgs namesakes) true (Int 4) #24)
    as Hsize by reflexivity.
  exact (argument_labels_distinct Rev_ById (holding (to_object namesakes)) 0%nat
           (Int 4) false (entry <$> opt_callArgs namesakes) true (Int 4) #24
           Hok Hreads Hsize eq_refl).
Defined.
